(** * Control plane of the multi-agent orchestration platform

    A shallow embedding of the orchestrator's task scheduler
    ([core/task_scheduler.py]), agent manager ([core/agent_manager.py]),
    task route ([api/routes.py]), event consumer
    ([shared/events/consumers.py]) and webhook service
    ([services/webhook_service.py]), followed by the properties of the
    specification that concern them and by further properties of the code.

    Conventions of the embedding:
    - the relational store is a record of finite maps keyed by UUID (a
      table with a primary key) and a list of dependency rows; it holds
      what has been committed, and an assignment that no commit writes (to
      an attribute that is no column, or inside a JSON dictionary) leaves
      it as it is;
    - every operation takes the store and the current time and returns its
      Python result together with the new store (explicit state passing);
    - published events are appended to a log kept next to the store;
    - a Python [str] is represented by its UTF-8 bytes (a Rocq [string]),
      so that [str.encode()] is the list of its bytes. *)

From Stdlib Require Import ZArith List Lia Bool QArith.
From Stdlib Require Import Strings.String Strings.Ascii Strings.Byte.
From stdpp Require Import base option gmap strings list sorting.

Local Open Scope Z_scope.

(** ** SHA-256 and HMAC (the [hashlib] / [hmac] primitives used by the
       webhook signer) *)

Module Sha256.

(** 32-bit words are integers in [0, 2^32) with explicit wrap-around. *)
Definition wrap32 (x : Z) : Z := x mod 4294967296.
Definition add32 (x y : Z) : Z := wrap32 (x + y).
Definition rotr (n x : Z) : Z :=
  wrap32 (Z.lor (Z.shiftr x n) (Z.shiftl x (32 - n))).
Definition shr (n x : Z) : Z := Z.shiftr x n.
Definition not32 (x : Z) : Z := Z.lxor x 4294967295.

Definition Ch (x y z : Z) : Z := Z.lxor (Z.land x y) (Z.land (not32 x) z).
Definition Maj (x y z : Z) : Z :=
  Z.lxor (Z.lxor (Z.land x y) (Z.land x z)) (Z.land y z).
Definition Sigma0 (x : Z) : Z := Z.lxor (Z.lxor (rotr 2 x) (rotr 13 x)) (rotr 22 x).
Definition Sigma1 (x : Z) : Z := Z.lxor (Z.lxor (rotr 6 x) (rotr 11 x)) (rotr 25 x).
Definition sigma0 (x : Z) : Z := Z.lxor (Z.lxor (rotr 7 x) (rotr 18 x)) (shr 3 x).
Definition sigma1 (x : Z) : Z := Z.lxor (Z.lxor (rotr 17 x) (rotr 19 x)) (shr 10 x).

(** The constants of the standard are defined from the first primes: the
    round constants are the first 32 bits of the fractional parts of the
    cube roots of the first 64 primes, the initial chaining values those
    of the square roots of the first 8 primes. They are computed here from
    that definition. *)
Definition is_prime (n : Z) : bool :=
  (1 <? n)
  && forallb (fun d => negb (n mod d =? 0))
             (map Z.of_nat (seq 2 (Z.to_nat n - 2))).

Definition primes (count : nat) : list Z :=
  firstn count (List.filter is_prime (map Z.of_nat (seq 2 400))).

(** The integer part of the [k]-th root of [n], found bit by bit from
    bit [bit - 1] downwards. *)
Fixpoint root_bits (bit : nat) (k n r : Z) : Z :=
  match bit with
  | O => r
  | S bit' =>
      let c := r + 2 ^ Z.of_nat bit' in
      root_bits bit' k n (if c ^ k <=? n then c else r)
  end.

Definition iroot (k n : Z) : Z := root_bits 40 k n 0.

(** The first 32 bits of the fractional part of the [k]-th root of [p]. *)
Definition frac_root (k p : Z) : Z := wrap32 (iroot k (p * 2 ^ (32 * k))).

Definition K : list Z := map (frac_root 3) (primes 64).

(** The eight working variables / chaining values. *)
Record regs := Regs { ra : Z; rb : Z; rc : Z; rd : Z; re : Z; rf : Z; rg : Z; rh : Z }.

Definition H0 : regs :=
  match map (frac_root 2) (primes 8) with
  | [a; b; c; d; e; f; g; h] => Regs a b c d e f g h
  | _ => Regs 0 0 0 0 0 0 0 0
  end.


Definition be32 (b0 b1 b2 b3 : Z) : Z :=
  Z.lor (Z.lor (Z.shiftl b0 24) (Z.shiftl b1 16)) (Z.lor (Z.shiftl b2 8) b3).

Definition word_bytes (w : Z) : list Z :=
  [ Z.land (Z.shiftr w 24) 255; Z.land (Z.shiftr w 16) 255;
    Z.land (Z.shiftr w 8) 255; Z.land w 255 ].

Fixpoint words_of_bytes (bs : list Z) : list Z :=
  match bs with
  | b0 :: b1 :: b2 :: b3 :: rest => be32 b0 b1 b2 b3 :: words_of_bytes rest
  | _ => []
  end.

(** Message padding: a 1 bit, zeros up to 56 mod 64, and the bit length
    as a 64-bit big-endian integer. *)
Definition pad (msg : list Z) : list Z :=
  let n := Z.of_nat (length msg) in
  let zeros := Z.to_nat ((55 - n) mod 64) in
  let bits := 8 * n in
  msg ++ [128] ++ repeat 0 zeros
      ++ word_bytes (wrap32 (Z.shiftr bits 32)) ++ word_bytes (wrap32 bits).

(** Message schedule: the 16 words of the block extended to 64. *)
Fixpoint extend (n : nat) (w : list Z) : list Z :=
  match n with
  | O => w
  | S n' =>
      let t := length w in
      let at_ (k : nat) := nth (t - k) w 0 in
      extend n' (w ++ [add32 (add32 (sigma1 (at_ 2%nat)) (at_ 7%nat))
                             (add32 (sigma0 (at_ 15%nat)) (at_ 16%nat))])
  end.

Definition schedule (block : list Z) : list Z := extend 48 (words_of_bytes block).

Definition round (s : regs) (kw : Z * Z) : regs :=
  let t1 := add32 (add32 (add32 (rh s) (Sigma1 (re s))) (Ch (re s) (rf s) (rg s)))
                  (add32 (fst kw) (snd kw)) in
  let t2 := add32 (Sigma0 (ra s)) (Maj (ra s) (rb s) (rc s)) in
  Regs (add32 t1 t2) (ra s) (rb s) (rc s) (add32 (rd s) t1) (re s) (rf s) (rg s).

Definition compress (h : regs) (block : list Z) : regs :=
  let s := fold_left round (combine K (schedule block)) h in
  Regs (add32 (ra h) (ra s)) (add32 (rb h) (rb s)) (add32 (rc h) (rc s))
       (add32 (rd h) (rd s)) (add32 (re h) (re s)) (add32 (rf h) (rf s))
       (add32 (rg h) (rg s)) (add32 (rh h) (rh s)).

(** The padded message is consumed 64 bytes at a time; [fuel] bounds the
    number of blocks and is always given the length of the input. *)
Fixpoint blocks (fuel : nat) (h : regs) (bs : list Z) : regs :=
  match fuel, bs with
  | S fuel', _ :: _ => blocks fuel' (compress h (firstn 64 bs)) (skipn 64 bs)
  | _, _ => h
  end.

Definition digest_bytes (h : regs) : list Z :=
  word_bytes (ra h) ++ word_bytes (rb h) ++ word_bytes (rc h) ++ word_bytes (rd h)
    ++ word_bytes (re h) ++ word_bytes (rf h) ++ word_bytes (rg h) ++ word_bytes (rh h).

Definition sha256 (msg : list Z) : list Z :=
  let p := pad msg in digest_bytes (blocks (length p) H0 p).

Definition block_size : nat := 64.

(** [hmac.new(key, msg, hashlib.sha256).digest()] *)
Definition hmac_sha256 (key msg : list Z) : list Z :=
  let key0 := if (block_size <? length key)%nat then sha256 key else key in
  let key1 := key0 ++ repeat 0 (block_size - length key0) in
  let ipad := map (fun b => Z.lxor b 54) key1 in
  let opad := map (fun b => Z.lxor b 92) key1 in
  sha256 (opad ++ sha256 (ipad ++ msg)).

(** [str.encode()]: the bytes of the string. *)
Definition encode (s : string) : list Z :=
  map (fun b => Z.of_N (Byte.to_N b)) (list_byte_of_string s).

Definition hex_digit (n : Z) : ascii :=
  nth (Z.to_nat n)
      (list_ascii_of_string "0123456789abcdef") "0"%char.

(** [hexdigest()]: two lowercase hexadecimal digits per byte. *)
Fixpoint hexdigest (bs : list Z) : string :=
  match bs with
  | [] => EmptyString
  | b :: rest =>
      String (hex_digit (Z.shiftr b 4)) (String (hex_digit (Z.land b 15)) (hexdigest rest))
  end.

End Sha256.

(** ** Webhook dispatcher: payload signature *)

Module WebhookService.

(** [_sign_payload(payload, secret)] *)
Definition _sign_payload (payload secret : string) : string :=
  Sha256.hexdigest
    (Sha256.hmac_sha256 (Sha256.encode secret) (Sha256.encode payload)).

(** Modelled from the spec: the recipient's check of the
    [X-Webhook-Signature] header, which the repository does not
    contain ("Recipients verify by recomputing"): the signature is
    recomputed over the received body with the shared secret and compared
    with the header. *)
Definition verify (signature payload secret : string) : bool :=
  String.eqb signature (_sign_payload payload secret).

End WebhookService.

(** ** Persistent store: enumerations and rows
       ([shared/models/schemas.py], [shared/database/models.py]) *)

Abbreviation UUID := N (only parsing).
Abbreviation datetime := Z (only parsing).

Module TaskStatus.
Inductive t := PENDING | QUEUED | IN_PROGRESS | COMPLETED | FAILED | CANCELLED | RETRYING.
#[global] Instance eq_dec : EqDecision t.
Proof. solve_decision. Defined.
End TaskStatus.

Module AgentStatus.
Inductive t := IDLE | BUSY | OFFLINE | FAILED | STARTING | STOPPING.
#[global] Instance eq_dec : EqDecision t.
Proof. solve_decision. Defined.
End AgentStatus.

Module AgentType.
Inductive t := ORCHESTRATOR | WORKER | SPECIALIST | RESEARCH | ANALYSIS | COORDINATOR.
#[global] Instance eq_dec : EqDecision t.
Proof. solve_decision. Defined.
End AgentType.

(** The keys of the task's [metadata] dictionary that the scheduler
    uses; an absent key is [None]. The column is a plain JSONB: the
    scheduler's item assignments ([task.metadata_["retry_count"] = ...])
    change the loaded dictionary in place, which the session does not
    track, so no commit writes them and the stored dictionary stays as
    [submit_task] made it. *)
Record Metadata := mkMetadata {
  trace_id : option string;
  agent_type : option AgentType.t;
  retry_count : option Z;
  last_error : option string;
  progress : option Q;
  progress_message : option string
}.

(** [output_data]: the empty dictionary, [{"result": r}] or [{"error": e}]. *)
Inductive OutputData :=
| OutEmpty
| OutResult (result : string)
| OutError (error : string).

(** A row of [tasks] without its primary key. The table has no
    [updated_at] column: the assignment [task.updated_at = ...] that the
    scheduler makes sets a plain attribute on the loaded object, which no
    commit writes, so it does not appear here. *)
Record Task := mkTask {
  agent_id : option UUID;
  description : string;
  status : TaskStatus.t;
  priority : Z;
  input_data : string;
  output_data : OutputData;
  metadata_ : Metadata;
  deadline : option datetime;
  created_at : datetime;
  started_at : option datetime;
  completed_at : option datetime
}.

(** A row of [agents] without its primary key; [skills] is
    [capabilities["skills"]]. *)
Record Agent := mkAgent {
  name : string;
  type : AgentType.t;
  agent_status : AgentStatus.t;
  skills : list string;
  last_heartbeat : option datetime;
  agent_updated_at : datetime
}.

(** A row of [task_dependencies]. *)
Record TaskDependency := mkDep {
  task_id : UUID;
  depends_on_task_id : UUID
}.

#[global] Instance TaskDependency_eq_dec : EqDecision TaskDependency.
Proof. solve_decision. Defined.

(** Events handed to the producer ([shared/events/producers.py]). *)
Inductive Event :=
| TaskAssigned (task : UUID) (agent : UUID) (descr : string) (prio : Z)
    (dl : option datetime) (input : string) (trace : option string)
| TaskStarted (task : UUID) (agent : option UUID) (trace : option string)
| TaskProgress (task : UUID) (agent : option UUID) (frac : Q)
    (message : option string) (trace : option string)
| TaskCompleted (task : UUID) (agent : option UUID) (result : string)
    (trace : option string)
| TaskFailed (task : UUID) (agent : option UUID) (error : string)
    (retries : Z) (trace : option string).

(** The committed rows of the database together with the event log. Each
    operation is called with a session of its own, as the routes and the
    background loops do, so what it reads is what the last commit wrote. *)
Record Store := mkStore {
  tasks : gmap N Task;
  agents : gmap N Agent;
  task_dependencies : list TaskDependency;
  published : list Event
}.

(** Assignments to the columns of a loaded row, which the commit
    writes. *)
Definition set_task_status (s : TaskStatus.t) (t : Task) : Task :=
  mkTask (agent_id t) (description t) s (priority t) (input_data t) (output_data t)
         (metadata_ t) (deadline t) (created_at t) (started_at t) (completed_at t).
Definition set_task_agent_id (a : option UUID) (t : Task) : Task :=
  mkTask a (description t) (status t) (priority t) (input_data t) (output_data t)
         (metadata_ t) (deadline t) (created_at t) (started_at t) (completed_at t).
Definition set_task_output_data (o : OutputData) (t : Task) : Task :=
  mkTask (agent_id t) (description t) (status t) (priority t) (input_data t) o
         (metadata_ t) (deadline t) (created_at t) (started_at t) (completed_at t).
Definition set_task_started_at (now : datetime) (t : Task) : Task :=
  mkTask (agent_id t) (description t) (status t) (priority t) (input_data t)
         (output_data t) (metadata_ t) (deadline t) (created_at t) (Some now)
         (completed_at t).
Definition set_task_completed_at (now : datetime) (t : Task) : Task :=
  mkTask (agent_id t) (description t) (status t) (priority t) (input_data t)
         (output_data t) (metadata_ t) (deadline t) (created_at t) (started_at t)
         (Some now).

Definition set_agent_status (s : AgentStatus.t) (a : Agent) : Agent :=
  mkAgent (name a) (type a) s (skills a) (last_heartbeat a) (agent_updated_at a).
Definition set_agent_updated_at (now : datetime) (a : Agent) : Agent :=
  mkAgent (name a) (type a) (agent_status a) (skills a) (last_heartbeat a) now.
Definition set_agent_last_heartbeat (now : datetime) (a : Agent) : Agent :=
  mkAgent (name a) (type a) (agent_status a) (skills a) (Some now) (agent_updated_at a).

Definition put_task (k : UUID) (t : Task) (db : Store) : Store :=
  mkStore (<[k := t]> (tasks db)) (agents db) (task_dependencies db) (published db).
Definition put_agent (k : UUID) (a : Agent) (db : Store) : Store :=
  mkStore (tasks db) (<[k := a]> (agents db)) (task_dependencies db) (published db).
Definition publish (e : Event) (db : Store) : Store :=
  mkStore (tasks db) (agents db) (task_dependencies db) (published db ++ [e]).

(** ** Task scheduler ([core/task_scheduler.py]) *)

Module TaskScheduler.
Import TaskStatus.

(** The constructor arguments kept on [self]. *)
Record t := mk {
  default_timeout : Z;
  max_retries : Z;
  retry_delay : Z;
  queue_max_size : Z
}.

(** [get_task]: the row with the given primary key. *)
Definition get_task (db : Store) (task_id : UUID) : option Task :=
  tasks db !! task_id.

(** [session.get(Agent, agent_id)] followed by
    [agent.status = IDLE; agent.updated_at = now] when the row exists:
    the "Free up the agent" block shared by [complete_task], [fail_task]
    and [cancel_task]. *)
Definition free_agent (owner : option UUID) (now : datetime) (db : Store) : Store :=
  match owner with
  | Some a =>
      match agents db !! a with
      | Some agent =>
          put_agent a (set_agent_updated_at now
                         (set_agent_status AgentStatus.IDLE agent)) db
      | None => db
      end
  | None => db
  end.

Definition assign_task (db : Store) (task_id agent_id : UUID) (now : datetime)
  : bool * Store :=
  match get_task db task_id with
  | None => (false, db)
  | Some task =>
      if negb (bool_decide (status task = PENDING)
               || bool_decide (status task = QUEUED))
      then (false, db)
      else
        match agents db !! agent_id with
        | None => (false, db)
        | Some agent =>
            if negb (bool_decide (agent_status agent = AgentStatus.IDLE))
            then (false, db)
            else
              let task := set_task_status QUEUED
                            (set_task_agent_id (Some agent_id) task) in
              let agent := set_agent_updated_at now
                             (set_agent_status AgentStatus.BUSY agent) in
              let db := put_agent agent_id agent (put_task task_id task db) in
              (true,
               publish (TaskAssigned task_id agent_id (description task)
                          (priority task) (deadline task) (input_data task)
                          (trace_id (metadata_ task))) db)
        end
  end.

Definition start_task (db : Store) (task_id : UUID) (now : datetime)
  : bool * Store :=
  match get_task db task_id with
  | None => (false, db)
  | Some task =>
      if negb (bool_decide (status task = QUEUED)) then (false, db)
      else
        let task := set_task_started_at now
                      (set_task_status IN_PROGRESS task) in
        (true,
         publish (TaskStarted task_id (agent_id task) (trace_id (metadata_ task)))
                 (put_task task_id task db))
  end.

(** [update_task_progress]: the progress and its message are item
    assignments on [task.metadata_], and the time goes to
    [task.updated_at]; none of them is written by the commit. The row
    stays as it was, and the progress only leaves with the event. *)
Definition update_task_progress (db : Store) (task_id : UUID) (frac : Q)
    (message : option string) (now : datetime) : bool * Store :=
  match get_task db task_id with
  | None => (false, db)
  | Some task =>
      if negb (bool_decide (status task = IN_PROGRESS)) then (false, db)
      else
        (true,
         publish (TaskProgress task_id (agent_id task) frac message
                    (trace_id (metadata_ task)))
                 db)
  end.

Definition complete_task (db : Store) (task_id : UUID) (result : string)
    (now : datetime) : bool * Store :=
  match get_task db task_id with
  | None => (false, db)
  | Some task =>
      if negb (bool_decide (status task = IN_PROGRESS)) then (false, db)
      else
        let task := set_task_output_data (OutResult result)
                      (set_task_completed_at now
                         (set_task_status COMPLETED task)) in
        let db := free_agent (agent_id task) now (put_task task_id task db) in
        (true,
         publish (TaskCompleted task_id (agent_id task) result
                    (trace_id (metadata_ task))) db)
  end.

(** [fail_task]. In the retry branch the new retry count and the error
    are item assignments on [task.metadata_]; the commit writes the
    status and the cleared owner only, so the stored retry count is the
    one read at the start of the next call. *)
Definition fail_task (self : t) (db : Store) (task_id : UUID) (error : string)
    (retry : bool) (now : datetime) : bool * Store :=
  match get_task db task_id with
  | None => (false, db)
  | Some task =>
      let retry_count := default 0 (retry_count (metadata_ task)) in
      let task :=
        if retry && (retry_count <? max_retries self)
        then set_task_agent_id None (set_task_status RETRYING task)
        else
          set_task_output_data (OutError error)
            (set_task_completed_at now (set_task_status FAILED task)) in
      let db := free_agent (agent_id task) now (put_task task_id task db) in
      (true,
       publish (TaskFailed task_id (agent_id task) error retry_count
                  (trace_id (metadata_ task))) db)
  end.

Definition cancel_task (db : Store) (task_id : UUID) (now : datetime)
  : bool * Store :=
  match get_task db task_id with
  | None => (false, db)
  | Some task =>
      if negb (bool_decide (status task = PENDING)
               || bool_decide (status task = QUEUED))
      then (false, db)
      else
        let task := set_task_completed_at now
                      (set_task_status CANCELLED task) in
        (true, free_agent (agent_id task) now (put_task task_id task db))
  end.

(** [add_dependency]. The commit fails, and the row is rolled back, when
    the pair is already present (the table's unique constraint); the
    self-dependency check constraint and the foreign keys are covered by
    the tests made before the insert. *)
Definition add_dependency (db : Store) (task_id depends_on_task_id : UUID)
  : bool * Store :=
  if bool_decide (task_id = depends_on_task_id) then (false, db)
  else
    match get_task db task_id, get_task db depends_on_task_id with
    | Some _, Some _ =>
        let dependency := mkDep task_id depends_on_task_id in
        if bool_decide (dependency ∈ task_dependencies db) then (false, db)
        else
          (true,
           mkStore (tasks db) (agents db)
                   (task_dependencies db ++ [dependency]) (published db))
    | _, _ => (false, db)
    end.

(** [ORDER BY priority DESC, created_at ASC]: [row_order r1 r2] when
    [r1] may come before [r2]. *)
Definition row_order (r1 r2 : UUID * Task) : Prop :=
  priority r2.2 < priority r1.2
  ∨ (priority r1.2 = priority r2.2 ∧ created_at r1.2 ≤ created_at r2.2).

#[global] Instance row_order_dec : RelDecision row_order.
Proof. intros r1 r2. unfold row_order. apply _. Defined.

(** The inner loop over a task's dependency rows: a dependency whose
    task exists and is not completed blocks the task. *)
Definition all_deps_completed (db : Store) (id : UUID) : bool :=
  forallb
    (fun dep =>
       match get_task db (depends_on_task_id dep) with
       | Some dep_task => bool_decide (status dep_task = COMPLETED)
       | None => true
       end)
    (filter (fun dep => task_id dep = id) (task_dependencies db)).

(** The rows selected by the query of [get_ready_tasks], before the
    dependency filter. *)
Definition candidates (db : Store) (limit : nat) : list (UUID * Task) :=
  take limit
    (merge_sort row_order
       (filter (fun r : UUID * Task =>
                  status r.2 = PENDING ∨ status r.2 = RETRYING)
               (map_to_list (tasks db)))).

Definition get_ready_tasks (db : Store) (limit : nat) : list (UUID * Task) :=
  filter (fun r : UUID * Task => all_deps_completed db r.1 = true)
         (candidates db limit).

End TaskScheduler.

(** ** Agent manager ([core/agent_manager.py]) *)

Module AgentManager.
Import AgentStatus.

Definition get_agent (db : Store) (agent_id : UUID) : option Agent :=
  agents db !! agent_id.

Definition update_agent_status (db : Store) (agent_id : UUID)
    (status : AgentStatus.t) (now : datetime) : option Agent * Store :=
  match get_agent db agent_id with
  | None => (None, db)
  | Some agent =>
      let agent := set_agent_updated_at now (set_agent_status status agent) in
      let agent :=
        if bool_decide (status = IDLE) || bool_decide (status = BUSY)
        then set_agent_last_heartbeat now agent
        else agent in
      (Some agent, put_agent agent_id agent db)
  end.

(** [ORDER BY last_heartbeat DESC]: [heartbeat_desc r1 r2] when [r1] may
    come before [r2]. The column is nullable and PostgreSQL puts NULL
    first in a descending order. *)
Definition heartbeat_desc (r1 r2 : UUID * Agent) : Prop :=
  match last_heartbeat r1.2, last_heartbeat r2.2 with
  | None, _ => True
  | Some _, None => False
  | Some h1, Some h2 => h2 ≤ h1
  end.

#[global] Instance heartbeat_desc_dec : RelDecision heartbeat_desc.
Proof.
  intros r1 r2. unfold heartbeat_desc.
  destruct (last_heartbeat r1.2), (last_heartbeat r2.2); apply _.
Defined.

(** The rows matched by the WHERE clause of [get_available_agent]. *)
Definition matches (agent_type : option AgentType.t) (r : UUID * Agent) : Prop :=
  agent_status r.2 = IDLE
  ∧ match agent_type with
    | Some ty => type r.2 = ty
    | None => True
    end.

#[global] Instance matches_dec ty r : Decision (matches ty r).
Proof. unfold matches. destruct ty; apply _. Defined.

Definition has_all (required : list string) (agent : Agent) : bool :=
  forallb (fun cap => bool_decide (cap ∈ skills agent)) required.

(** The query of [get_available_agent] before its LIMIT: the matching
    rows, most recent heartbeat first. *)
Definition idle_rows (db : Store) (agent_type : option AgentType.t)
  : list (UUID * Agent) :=
  merge_sort heartbeat_desc (filter (matches agent_type) (map_to_list (agents db))).

Definition get_available_agent (db : Store) (agent_type : option AgentType.t)
    (required_capabilities : option (list string)) : option (UUID * Agent) :=
  let rows := take 1 (idle_rows db agent_type) in
  match head rows with
  | None => None
  | Some r =>
      match required_capabilities with
      | Some (cap :: caps) =>
          if negb (has_all (cap :: caps) r.2) then None else Some r
      | _ => Some r
      end
  end.

End AgentManager.

(** ** Event consumer ([shared/events/consumers.py]) *)

Module EventConsumer.

(** A deserialised event: the value of its ["event_type"] key, when it
    has one, and the rest of the dictionary, kept as text. *)
Record EventDict := mkEvent {
  event_type : option string;
  body : string
}.

(** A consumed record. [value] is [None] when the deserialised value is
    not a dictionary, in which case [event.get] raises. *)
Record Message := mkMessage {
  topic : string;
  partition : Z;
  offset : Z;
  value : option EventDict
}.

(** A registered callable: its [__name__] and, for every event, whether
    the call returns ([None]) or raises an exception with a message. *)
Record Handler := mkHandler {
  __name__ : string;
  call : EventDict -> option string
}.

Record t := mk {
  enable_auto_commit : bool;
  _handlers : gmap string (list Handler)
}.

Inductive LogRecord :=
| HandlerError (error : string) (ty : option string) (handler : string)
| ProcessingError (tp : string) (part off : Z).

(** What the consumer has done so far: the offsets committed per topic
    and partition, the handler calls made, and the errors logged. *)
Record State := mkState {
  _running : bool;
  committed : gmap (string * Z) Z;
  handled : list (string * EventDict);
  logged : list LogRecord
}.

Definition register_handler (self : t) (ty : string) (h : Handler) : t :=
  mk (enable_auto_commit self)
     (<[ty := default [] (_handlers self !! ty) ++ [h]]> (_handlers self)).

(** One iteration of the loop over the handlers: the call, and the
    [except Exception] clause that logs and goes on. *)
Definition run_handler (event : EventDict) (st : State) (h : Handler) : State :=
  let st := mkState (_running st) (committed st)
                    (handled st ++ [(__name__ h, event)]) (logged st) in
  match call h event with
  | None => st
  | Some e =>
      mkState (_running st) (committed st) (handled st)
              (logged st ++ [HandlerError e (event_type event) (__name__ h)])
  end.

Definition handlers_for (self : t) (event : EventDict) : list Handler :=
  match event_type event with
  | Some ty => default [] (_handlers self !! ty)
  | None => []
  end.

(** [_process_message]; [None] when it raises. *)
Definition _process_message (self : t) (st : State) (message : Message)
  : option State :=
  match value message with
  | None => None
  | Some event => Some (fold_left (run_handler event) (handlers_for self event) st)
  end.

Definition commit (st : State) (tp : string * Z) (off : Z) : State :=
  mkState (_running st) (<[tp := off]> (committed st)) (handled st) (logged st).

(** The body of the [async for] loop of [consume] for one record. *)
Definition consume_record (self : t) (st : State) (message : Message) : State :=
  match _process_message self st message with
  | Some st =>
      if negb (enable_auto_commit self)
      then commit st (topic message, partition message) (offset message + 1)
      else st
  | None =>
      mkState (_running st) (committed st) (handled st)
              (logged st ++ [ProcessingError (topic message) (partition message)
                               (offset message)])
  end.

(** What reaches the loop of [consume]: a record delivered by the
    broker, or a call of [stop()] made between two records. *)
Inductive Input :=
| Delivered (message : Message)
| StopCalled.

Definition stop (st : State) : State :=
  mkState false (committed st) (handled st) (logged st).

Fixpoint consume_loop (self : t) (st : State) (inputs : list Input) : State :=
  match inputs with
  | [] => st
  | StopCalled :: rest => consume_loop self (stop st) rest
  | Delivered message :: rest =>
      if negb (_running st) then st
      else consume_loop self (consume_record self st message) rest
  end.

(** [consume]: sets [_running] and enters the loop. *)
Definition consume (self : t) (st : State) (inputs : list Input) : State :=
  consume_loop self
    (mkState true (committed st) (handled st) (logged st)) inputs.

End EventConsumer.

(** ** Notions of the specification

    These definitions follow the words of the specification, not the code;
    the properties below compare the code with them. *)

Module Spec.

(** "terminal statuses (completed/failed/cancelled)" *)
Definition terminal (s : TaskStatus.t) : bool :=
  match s with
  | TaskStatus.COMPLETED | TaskStatus.FAILED | TaskStatus.CANCELLED => true
  | _ => false
  end.

(** "the directed graph (task -> depends_on)": a path of one or more
    dependency rows. *)
Inductive reaches (deps : list TaskDependency) : UUID -> UUID -> Prop :=
| reaches_edge a b : mkDep a b ∈ deps -> reaches deps a b
| reaches_step a b c : mkDep a b ∈ deps -> reaches deps b c -> reaches deps a c.

Definition acyclic (deps : list TaskDependency) : Prop :=
  forall a, ~ reaches deps a a.

(** "starting -> idle; idle <-> busy; any -> stopping -> offline;
    any -> failed" *)
Definition allowed_transition (old new : AgentStatus.t) : bool :=
  match old, new with
  | AgentStatus.STARTING, AgentStatus.IDLE => true
  | AgentStatus.IDLE, AgentStatus.BUSY => true
  | AgentStatus.BUSY, AgentStatus.IDLE => true
  | _, AgentStatus.STOPPING => true
  | AgentStatus.STOPPING, AgentStatus.OFFLINE => true
  | _, AgentStatus.FAILED => true
  | _, _ => false
  end.

(** "the deadline has already passed" *)
Definition overdue (now : datetime) (task : Task) : bool :=
  match deadline task with
  | Some d => d <? now
  | None => false
  end.

(** "overdue tasks trump everything": in a list of rows every overdue
    task stands before every task that is not overdue. *)
Definition overdue_first (now : datetime) (rows : list (UUID * Task)) : Prop :=
  forall (i j : nat) r1 r2,
    rows !! i = Some r1 -> rows !! j = Some r2 ->
    overdue now r1.2 = true -> overdue now r2.2 = false -> (i < j)%nat.

(** "every depends_on task is completed" *)
Definition deps_completed (db : Store) (id : UUID) : Prop :=
  forall d dep_task,
    d ∈ task_dependencies db -> task_id d = id ->
    tasks db !! depends_on_task_id d = Some dep_task ->
    status dep_task = TaskStatus.COMPLETED.











End Spec.

(** ** Fixtures used by the examples below *)

Module Fixtures.

Definition scheduler : TaskScheduler.t := TaskScheduler.mk 300 3 5 10000.

Definition no_metadata : Metadata := mkMetadata None None None None None None.

Definition task_in (s : TaskStatus.t) (owner : option UUID) : Task :=
  mkTask owner "summarise" s 0 "{}" OutEmpty
         (mkMetadata (Some "trace-1") None (Some 0) None None None)
         None 10 None None.

Definition agent_in (s : AgentStatus.t) : Agent :=
  mkAgent "worker-1" AgentType.WORKER s [] (Some 10) 10.

(** One task (id 1) owned by one agent (id 7). *)
Definition one_task (ts : TaskStatus.t) (s : AgentStatus.t) : Store :=
  mkStore {[ 1%N := task_in ts (Some 7%N) ]} {[ 7%N := agent_in s ]} [] [].

(** As [one_task], but the task has no owner. *)
Definition unowned_task (ts : TaskStatus.t) (s : AgentStatus.t) : Store :=
  mkStore {[ 1%N := task_in ts None ]} {[ 7%N := agent_in s ]} [] [].

(** Two pending tasks (ids 1 and 2) and no dependency. *)
Definition two_tasks : Store :=
  mkStore {[ 1%N := task_in TaskStatus.PENDING None;
             2%N := task_in TaskStatus.PENDING None ]} ∅ [] [].

(** Task 1 has priority 5 and no deadline; task 2 has priority 0 and a
    deadline (time 3) that has passed at time 100. Both are pending. *)
Definition overdue_store : Store :=
  mkStore {[ 1%N := mkTask None "A" TaskStatus.PENDING 5 "{}" OutEmpty no_metadata
                           None 10 None None;
             2%N := mkTask None "B" TaskStatus.PENDING 0 "{}" OutEmpty no_metadata
                           (Some 3) 5 None None ]} ∅ [] [].


(** A consumer with one handler for [task.assigned] that always raises. *)
Definition failing_handler : EventConsumer.Handler :=
  EventConsumer.mkHandler "on_assigned" (fun _ => Some "boom").

Definition failing_consumer : EventConsumer.t :=
  EventConsumer.register_handler (EventConsumer.mk false ∅)
    "task.assigned" failing_handler.

Definition assigned_event : EventConsumer.EventDict :=
  EventConsumer.mkEvent (Some "task.assigned") "{}".

Definition assigned_record : EventConsumer.Message :=
  EventConsumer.mkMessage "agent.tasks" 0 41 (Some assigned_event).

Definition fresh_consumer_state : EventConsumer.State :=
  EventConsumer.mkState false ∅ [] [].

(** The tasks T1, T2 and T3 of the cycle scenario, without dependency. *)
Definition three_tasks : Store :=
  mkStore {[ 1%N := task_in TaskStatus.PENDING None;
             2%N := task_in TaskStatus.PENDING None;
             3%N := task_in TaskStatus.PENDING None ]} ∅ [] [].

End Fixtures.

(** ** Sequences of calls and table invariants *)

Module Runs.

(** A sequence of [add_dependency] calls, whatever each one returns. *)
Definition add_dependencies (db : Store) (calls : list (UUID * UUID)) : Store :=
  fold_left (fun db c => (TaskScheduler.add_dependency db c.1 c.2).2) calls db.

(** What the dependency table guarantees: no duplicate pair, no
    self-dependency, and both ends of every pair are tasks. *)
Definition dependencies_ok (db : Store) : Prop :=
  NoDup (task_dependencies db)
  ∧ Forall (fun d => task_id d ≠ depends_on_task_id d
                     ∧ is_Some (tasks db !! task_id d)
                     ∧ is_Some (tasks db !! depends_on_task_id d))
           (task_dependencies db).

End Runs.

(** ** Scheduler: queue size, the loop, and sequences of calls *)

Module SchedulerLoop.
Import TaskScheduler TaskStatus.

(** The statuses counted by [_get_queue_size]. *)
Definition active (r : UUID * Task) : Prop :=
  status r.2 = PENDING ∨ status r.2 = QUEUED
  ∨ status r.2 = IN_PROGRESS ∨ status r.2 = RETRYING.

#[global] Instance active_dec r : Decision (active r).
Proof. unfold active. apply _. Defined.

(** What one task adds to the queue size. *)
Definition counts (t : Task) : nat :=
  if decide (active (0%N, t)) then 1%nat else 0%nat.

(** [_get_queue_size] *)
Definition _get_queue_size (db : Store) : nat :=
  length (filter active (map_to_list (tasks db))).

(** The body of the [for task in ready_tasks] loop of [_scheduler_loop]:
    the agent type hint is read from the task's metadata, an available
    agent is asked for, and the task is assigned when there is one (the
    result of [assign_task] is dropped). *)
Definition schedule_task (now : datetime) (db : Store) (r : UUID * Task) : Store :=
  match AgentManager.get_available_agent db (agent_type (metadata_ r.2)) None with
  | Some a => (assign_task db r.1 a.1 now).2
  | None => db
  end.

(** One iteration of [_scheduler_loop] after its sleep. *)
Definition scheduler_tick (db : Store) (now : datetime) : Store :=
  fold_left (schedule_task now) (get_ready_tasks db 10) db.

(** A call of one of the scheduler's operations on stored tasks. *)
Inductive Call :=
| AssignTask (task agent : UUID)
| StartTask (task : UUID)
| UpdateTaskProgress (task : UUID) (frac : Q) (message : option string)
| CompleteTask (task : UUID) (result : string)
| FailTask (task : UUID) (error : string) (retry : bool)
| CancelTask (task : UUID)
| AddDependency (task depends_on : UUID).

Definition call (self : TaskScheduler.t) (db : Store) (c : Call) (now : datetime)
  : bool * Store :=
  match c with
  | AssignTask t a => assign_task db t a now
  | StartTask t => start_task db t now
  | UpdateTaskProgress t frac message => update_task_progress db t frac message now
  | CompleteTask t result => complete_task db t result now
  | FailTask t error retry => fail_task self db t error retry now
  | CancelTask t => cancel_task db t now
  | AddDependency t d => add_dependency db t d
  end.

(** The task a call is about. *)
Definition subject (c : Call) : UUID :=
  match c with
  | AssignTask t _ | StartTask t | UpdateTaskProgress t _ _ | CompleteTask t _
  | FailTask t _ _ | CancelTask t | AddDependency t _ => t
  end.

(** Calls made one after the other, each at its own time. *)
Fixpoint run (self : TaskScheduler.t) (db : Store) (calls : list (Call * datetime))
  : Store :=
  match calls with
  | [] => db
  | (c, now) :: rest => run self (call self db c now).2 rest
  end.

(** The times of the calls never go back, starting from [now]. *)
Fixpoint clock_ok (now : datetime) (calls : list (Call * datetime)) : Prop :=
  match calls with
  | [] => True
  | (_, t) :: rest => now ≤ t ∧ clock_ok t rest
  end.

(** The status changes the operations make, per operation. *)
Definition lifecycle (c : Call) (old new : TaskStatus.t) : bool :=
  match c, old, new with
  | AssignTask _ _, (PENDING | QUEUED), QUEUED => true
  | StartTask _, QUEUED, IN_PROGRESS => true
  | CompleteTask _ _, IN_PROGRESS, COMPLETED => true
  | CancelTask _, (PENDING | QUEUED), CANCELLED => true
  | FailTask _ _ true, _, RETRYING => true
  | FailTask _ _ _, _, FAILED => true
  | _, _, _ => false
  end.

(** What an accepted call writes on its task; [None] when the call has
    no effect on a task in that status. Used to reason about all the
    operations at once. *)
Definition task_effect (self : TaskScheduler.t) (now : datetime) (c : Call)
    (t : Task) : option Task :=
  match c with
  | AssignTask _ a =>
      if bool_decide (status t = PENDING) || bool_decide (status t = QUEUED)
      then Some (set_task_status QUEUED (set_task_agent_id (Some a) t))
      else None
  | StartTask _ =>
      if bool_decide (status t = QUEUED)
      then Some (set_task_started_at now (set_task_status IN_PROGRESS t))
      else None
  | UpdateTaskProgress _ frac message => None
  | CompleteTask _ result =>
      if bool_decide (status t = IN_PROGRESS)
      then Some (set_task_output_data (OutResult result)
                   (set_task_completed_at now (set_task_status COMPLETED t)))
      else None
  | FailTask _ error retry =>
      let n := default 0 (retry_count (metadata_ t)) in
      if retry && (n <? max_retries self)
      then Some (set_task_agent_id None (set_task_status RETRYING t))
      else Some (set_task_output_data (OutError error)
                   (set_task_completed_at now (set_task_status FAILED t)))
  | CancelTask _ =>
      if bool_decide (status t = PENDING) || bool_decide (status t = QUEUED)
      then Some (set_task_completed_at now (set_task_status CANCELLED t))
      else None
  | AddDependency _ _ => None
  end.

(** The retry counter of every stored task is within the scheduler's bound. *)
Definition retries_bounded (self : TaskScheduler.t) (db : Store) : Prop :=
  forall k t, tasks db !! k = Some t ->
              default 0 (retry_count (metadata_ t)) ≤ max_retries self.

(** The time stamps of a task at time [now]: nothing lies in the future, a
    task that has a completion time is no longer pending, queued or in
    progress, and the start is not after the completion. *)
Definition stamps_ok (now : datetime) (t : Task) : Prop :=
  (forall c, completed_at t = Some c ->
             c ≤ now ∧ status t ≠ PENDING ∧ status t ≠ QUEUED
             ∧ status t ≠ IN_PROGRESS)
  ∧ (forall s, started_at t = Some s -> s ≤ now)
  ∧ (forall s c, started_at t = Some s -> completed_at t = Some c -> s ≤ c).

(** The assignments made since the store [db0]: [pairs] lists each task
    with the agent it was given. No task and no agent occurs twice; each
    task was pending and each agent idle in [db0], the agent being of the
    type the task asks for; in [db] the task is queued and owned by the
    agent and the agent is busy; every other task and agent, and the
    dependency table, are as in [db0]. *)
Definition assignments (db0 db : Store) (now : datetime)
    (pairs : list (UUID * UUID)) : Prop :=
  NoDup pairs.*1 ∧ NoDup pairs.*2
  ∧ (forall k a,
        (k, a) ∈ pairs ->
        exists t ag,
          tasks db0 !! k = Some t ∧ status t = TaskStatus.PENDING
          ∧ agents db0 !! a = Some ag ∧ agent_status ag = AgentStatus.IDLE
          ∧ (forall ty, agent_type (metadata_ t) = Some ty -> type ag = ty)
          ∧ tasks db !! k
            = Some (set_task_status TaskStatus.QUEUED
                      (set_task_agent_id (Some a) t))
          ∧ agents db !! a
            = Some (set_agent_updated_at now
                      (set_agent_status AgentStatus.BUSY ag)))
  ∧ (forall k, k ∉ pairs.*1 -> tasks db !! k = tasks db0 !! k)
  ∧ (forall a, a ∉ pairs.*2 -> agents db !! a = agents db0 !! a)
  ∧ task_dependencies db = task_dependencies db0.

End SchedulerLoop.

(** ** Agent manager: heartbeats, termination and the health monitor *)

Module AgentLifecycle.
Import AgentStatus.

(** The constructor arguments kept on [self]. *)
Record t := mk {
  heartbeat_interval : Z;
  heartbeat_timeout : Z;
  max_agents : Z
}.

(** The lifecycle events the manager hands to the producer. *)
Inductive AgentEvent :=
| AgentHeartbeat (agent : UUID) (status : AgentStatus.t) (metrics : option string)
| AgentStopped (agent : UUID) (reason : string).

(** [record_heartbeat]: the UPDATE touches no row when the agent is
    unknown. *)
Definition record_heartbeat (db : Store) (agent_id : UUID)
    (metrics : option string) (now : datetime) : bool * Store * list AgentEvent :=
  match agents db !! agent_id with
  | None => (false, db, [])
  | Some agent =>
      let agent := set_agent_updated_at now (set_agent_last_heartbeat now agent) in
      let db := put_agent agent_id agent db in
      match AgentManager.get_agent db agent_id with
      | Some agent => (true, db, [AgentHeartbeat agent_id (agent_status agent) metrics])
      | None => (true, db, [])
      end
  end.

(** [terminate_agent] *)
Definition terminate_agent (db : Store) (agent_id : UUID) (reason : string)
    (now : datetime) : bool * Store * list AgentEvent :=
  match AgentManager.get_agent db agent_id with
  | None => (false, db, [])
  | Some agent =>
      let agent := set_agent_updated_at now (set_agent_status OFFLINE agent) in
      (true, put_agent agent_id agent db, [AgentStopped agent_id reason])
  end.

(** The WHERE clause of [_check_agent_health]: idle or busy, and a
    heartbeat older than the threshold. A row without heartbeat does not
    satisfy the comparison. *)
Definition stale (threshold : datetime) (r : UUID * Agent) : Prop :=
  (agent_status r.2 = IDLE ∨ agent_status r.2 = BUSY)
  ∧ match last_heartbeat r.2 with
    | Some h => h < threshold
    | None => False
    end.

#[global] Instance stale_dec threshold r : Decision (stale threshold r).
Proof. unfold stale. destruct (last_heartbeat r.2); apply _. Defined.

(** The body of the loop over the stale agents. *)
Definition mark_offline (now : datetime) (acc : Store * list AgentEvent)
    (r : UUID * Agent) : Store * list AgentEvent :=
  let agent := set_agent_updated_at now (set_agent_status OFFLINE r.2) in
  (put_agent r.1 agent acc.1, acc.2 ++ [AgentStopped r.1 "heartbeat_timeout"]).

(** [_check_agent_health] *)
Definition _check_agent_health (self : t) (db : Store) (now : datetime)
  : Store * list AgentEvent :=
  let timeout_threshold := now - heartbeat_timeout self in
  let stale_agents := filter (stale timeout_threshold) (map_to_list (agents db)) in
  fold_left (mark_offline now) stale_agents (db, []).

End AgentLifecycle.

(** ** HTTP routes over the scheduler ([api/routes.py]) *)

Module Routes.
Import TaskStatus.

(** The body of [PATCH /tasks/{id}] after validation. *)
Record UpdateTaskRequest := mkUpdate {
  req_status : option TaskStatus.t;
  req_progress : option Q;
  req_result : option string;
  req_error : option string
}.

(** What the route answers: the 404 exception or the "updated" body. *)
Inductive Response :=
| NotFound
| Updated.

(** Truth value of an optional string: [None] and the empty string are
    false. *)
Definition truthy (s : option string) : bool :=
  match s with
  | Some e => negb (String.eqb e "")
  | None => false
  end.

(** [update_task]: the first branch needs [status == COMPLETED] and a
    result that is not [None], the second [status == FAILED] and a
    non-empty error, the third a progress that is not [None]. The results
    of the scheduler calls are dropped, and [fail_task] is called with its
    default [retry=True]. *)
Definition update_task (scheduler : TaskScheduler.t) (db : Store) (task_id : UUID)
    (request : UpdateTaskRequest) (now : datetime) : Response * Store :=
  match TaskScheduler.get_task db task_id with
  | None => (NotFound, db)
  | Some _ =>
      match (if bool_decide (req_status request = Some COMPLETED)
             then req_result request else None) with
      | Some result =>
          (Updated, (TaskScheduler.complete_task db task_id result now).2)
      | None =>
          if bool_decide (req_status request = Some FAILED)
             && truthy (req_error request)
          then (Updated,
                (TaskScheduler.fail_task scheduler db task_id
                   (default "" (req_error request)) true now).2)
          else
            match req_progress request with
            | Some p =>
                (Updated,
                 (TaskScheduler.update_task_progress db task_id p None now).2)
            | None => (Updated, db)
            end
      end
  end.

End Routes.

(** ** Webhook dispatcher: endpoints, deliveries, retries
       ([services/webhook_service.py]) *)

Module WebhookEventType.
Inductive t :=
| AGENT_CREATED | AGENT_UPDATED | AGENT_DELETED | AGENT_STATUS_CHANGED
| TASK_CREATED | TASK_STARTED | TASK_COMPLETED | TASK_FAILED | TASK_CANCELLED
| SYSTEM_ALERT | SYSTEM_ERROR
| ALL.
#[global] Instance eq_dec : EqDecision t.
Proof. solve_decision. Defined.
End WebhookEventType.

Module WebhookStatus.
Inductive t := ACTIVE | PAUSED | DISABLED | FAILED.
#[global] Instance eq_dec : EqDecision t.
Proof. solve_decision. Defined.
End WebhookStatus.

Module DeliveryStatus.
Inductive t := PENDING | DELIVERED | FAILED | RETRYING.
#[global] Instance eq_dec : EqDecision t.
Proof. solve_decision. Defined.
End DeliveryStatus.

(** [WebhookConfig]; [metadata] is kept as text. *)
Module WebhookConfig.
Record t := mk {
  id : string;
  name : string;
  url : string;
  events : list WebhookEventType.t;
  secret : string;
  status : WebhookStatus.t;
  headers : gmap string string;
  metadata : string;
  retry_count : Z;
  retry_delay_seconds : Z;
  timeout_seconds : Z;
  created_at : datetime;
  updated_at : datetime;
  last_delivery_at : option datetime;
  failure_count : Z;
  success_count : Z
}.

Definition set_name (v : string) (w : t) : t :=
  mk (id w) v (url w) (events w) (secret w) (status w) (headers w) (metadata w)
     (retry_count w) (retry_delay_seconds w) (timeout_seconds w) (created_at w)
     (updated_at w) (last_delivery_at w) (failure_count w) (success_count w).
Definition set_url (v : string) (w : t) : t :=
  mk (id w) (name w) v (events w) (secret w) (status w) (headers w) (metadata w)
     (retry_count w) (retry_delay_seconds w) (timeout_seconds w) (created_at w)
     (updated_at w) (last_delivery_at w) (failure_count w) (success_count w).
Definition set_events (v : list WebhookEventType.t) (w : t) : t :=
  mk (id w) (name w) (url w) v (secret w) (status w) (headers w) (metadata w)
     (retry_count w) (retry_delay_seconds w) (timeout_seconds w) (created_at w)
     (updated_at w) (last_delivery_at w) (failure_count w) (success_count w).
Definition set_status (v : WebhookStatus.t) (w : t) : t :=
  mk (id w) (name w) (url w) (events w) (secret w) v (headers w) (metadata w)
     (retry_count w) (retry_delay_seconds w) (timeout_seconds w) (created_at w)
     (updated_at w) (last_delivery_at w) (failure_count w) (success_count w).
Definition set_headers (v : gmap string string) (w : t) : t :=
  mk (id w) (name w) (url w) (events w) (secret w) (status w) v (metadata w)
     (retry_count w) (retry_delay_seconds w) (timeout_seconds w) (created_at w)
     (updated_at w) (last_delivery_at w) (failure_count w) (success_count w).
Definition set_updated_at (v : datetime) (w : t) : t :=
  mk (id w) (name w) (url w) (events w) (secret w) (status w) (headers w) (metadata w)
     (retry_count w) (retry_delay_seconds w) (timeout_seconds w) (created_at w)
     v (last_delivery_at w) (failure_count w) (success_count w).
Definition set_last_delivery_at (v : datetime) (w : t) : t :=
  mk (id w) (name w) (url w) (events w) (secret w) (status w) (headers w) (metadata w)
     (retry_count w) (retry_delay_seconds w) (timeout_seconds w) (created_at w)
     (updated_at w) (Some v) (failure_count w) (success_count w).
Definition set_failure_count (v : Z) (w : t) : t :=
  mk (id w) (name w) (url w) (events w) (secret w) (status w) (headers w) (metadata w)
     (retry_count w) (retry_delay_seconds w) (timeout_seconds w) (created_at w)
     (updated_at w) (last_delivery_at w) v (success_count w).
Definition set_success_count (v : Z) (w : t) : t :=
  mk (id w) (name w) (url w) (events w) (secret w) (status w) (headers w) (metadata w)
     (retry_count w) (retry_delay_seconds w) (timeout_seconds w) (created_at w)
     (updated_at w) (last_delivery_at w) (failure_count w) v.
End WebhookConfig.

(** [WebhookEvent]; [data] and [metadata] are kept as text. *)
Module WebhookEvent.
Record t := mk {
  id : string;
  type : WebhookEventType.t;
  timestamp : datetime;
  data : string;
  metadata : string
}.
End WebhookEvent.

(** [WebhookDelivery]; [payload] is the dumped event. *)
Module WebhookDelivery.
Record t := mk {
  id : string;
  webhook_id : string;
  event_type : WebhookEventType.t;
  payload : WebhookEvent.t;
  status : DeliveryStatus.t;
  attempt_count : Z;
  max_attempts : Z;
  created_at : datetime;
  scheduled_for : datetime;
  delivered_at : option datetime;
  response_status : option Z;
  response_body : option string;
  error : option string;
  duration_ms : option Q
}.

Definition set_status (v : DeliveryStatus.t) (d : t) : t :=
  mk (id d) (webhook_id d) (event_type d) (payload d) v (attempt_count d)
     (max_attempts d) (created_at d) (scheduled_for d) (delivered_at d)
     (response_status d) (response_body d) (error d) (duration_ms d).
Definition set_attempt_count (v : Z) (d : t) : t :=
  mk (id d) (webhook_id d) (event_type d) (payload d) (status d) v
     (max_attempts d) (created_at d) (scheduled_for d) (delivered_at d)
     (response_status d) (response_body d) (error d) (duration_ms d).
Definition set_scheduled_for (v : datetime) (d : t) : t :=
  mk (id d) (webhook_id d) (event_type d) (payload d) (status d) (attempt_count d)
     (max_attempts d) (created_at d) v (delivered_at d)
     (response_status d) (response_body d) (error d) (duration_ms d).
Definition set_delivered_at (v : datetime) (d : t) : t :=
  mk (id d) (webhook_id d) (event_type d) (payload d) (status d) (attempt_count d)
     (max_attempts d) (created_at d) (scheduled_for d) (Some v)
     (response_status d) (response_body d) (error d) (duration_ms d).
(** The three assignments made as soon as a response has arrived. *)
Definition set_response (code : Z) (body : option string) (duration : Q) (d : t) : t :=
  mk (id d) (webhook_id d) (event_type d) (payload d) (status d) (attempt_count d)
     (max_attempts d) (created_at d) (scheduled_for d) (delivered_at d)
     (Some code) body (error d) (Some duration).
Definition set_error (v : string) (d : t) : t :=
  mk (id d) (webhook_id d) (event_type d) (payload d) (status d) (attempt_count d)
     (max_attempts d) (created_at d) (scheduled_for d) (delivered_at d)
     (response_status d) (response_body d) (Some v) (duration_ms d).
End WebhookDelivery.

Module WebhookDispatcher.

(** Library functions the dispatcher calls and this development leaves
    open: [json.dumps(payload, default=str)], [datetime.isoformat],
    [str] of an integer, and the slice [text[:n]]. *)
Record Runtime := mkRuntime {
  json_dumps : WebhookEvent.t -> string;
  isoformat : datetime -> string;
  str_int : Z -> string;
  slice : nat -> string -> string
}.

(** What the POST of a delivery comes back with: a response, or an
    exception with its message. *)
Inductive Outcome :=
| Response (status_code : Z) (text : string)
| Raised (message : string).

(** The arguments of [self._http_client.post]. *)
Record Request := mkRequest {
  req_url : string;
  req_content : string;
  req_headers : gmap string string;
  req_timeout : Z
}.

(** The service: the registered endpoints (a dictionary, in insertion
    order), the delivery queue and the requests posted so far, together
    with the Redis server beside it: whether it is up and what it holds
    under the service's prefix (the endpoint configurations, and the
    delivery records with their expiry time). The service asks for its
    Redis client with [redis_manager.get_client()], and [RedisManager]
    ([shared/database/connections.py]) has no such method: each of these
    calls raises [AttributeError] inside a [try] whose handler logs it, so
    nothing below reads or writes what the server holds. *)
Record t := mk {
  _webhooks : list (string * WebhookConfig.t);
  _delivery_queue : list WebhookDelivery.t;
  redis_up : bool;
  redis_configs : gmap string WebhookConfig.t;
  redis_deliveries : gmap string (datetime * WebhookDelivery.t);
  posted : list Request
}.

(** Dictionary operations on an insertion-ordered dictionary. *)
Fixpoint dict_get {V} (k : string) (d : list (string * V)) : option V :=
  match d with
  | [] => None
  | (k', v) :: rest => if String.eqb k k' then Some v else dict_get k rest
  end.

Fixpoint dict_set {V} (k : string) (v : V) (d : list (string * V))
  : list (string * V) :=
  match d with
  | [] => [(k, v)]
  | (k', v') :: rest =>
      if String.eqb k k' then (k, v) :: rest else (k', v') :: dict_set k v rest
  end.

Fixpoint dict_del {V} (k : string) (d : list (string * V)) : list (string * V) :=
  match d with
  | [] => []
  | (k', v') :: rest =>
      if String.eqb k k' then rest else (k', v') :: dict_del k rest
  end.

Definition with_webhooks (ws : list (string * WebhookConfig.t)) (st : t) : t :=
  mk ws (_delivery_queue st) (redis_up st) (redis_configs st) (redis_deliveries st)
     (posted st).
Definition with_queue (q : list WebhookDelivery.t) (st : t) : t :=
  mk (_webhooks st) q (redis_up st) (redis_configs st) (redis_deliveries st)
     (posted st).
Definition with_posted (r : list Request) (st : t) : t :=
  mk (_webhooks st) (_delivery_queue st) (redis_up st) (redis_configs st)
     (redis_deliveries st) r.

(** [_store_delivery]: [redis_manager.get_client()] raises, the handler
    logs "Failed to store delivery", and no record is stored. *)
Definition _store_delivery (st : t) (delivery : WebhookDelivery.t) : t := st.

(** [_save_webhook]: likewise, the configuration is not saved. *)
Definition _save_webhook (st : t) (webhook : WebhookConfig.t) : t := st.

(** [register_webhook]; [webhook_id] and [generated] stand for the fresh
    UUID and for [_generate_secret()]. The defaults of [WebhookConfig]
    fill the other fields. *)
Definition register_webhook (st : t) (name url : string)
    (events : list WebhookEventType.t) (secret : option string)
    (headers : option (gmap string string)) (metadata : option string)
    (webhook_id generated : string) (now : datetime) : WebhookConfig.t * t :=
  let secret := match secret with
                | Some s => if String.eqb s "" then generated else s
                | None => generated
                end in
  let webhook :=
    WebhookConfig.mk webhook_id name url events secret WebhookStatus.ACTIVE
      (default ∅ headers) (default "{}" metadata) 3 60 30 now now None 0 0 in
  (webhook, _save_webhook (with_webhooks (dict_set webhook_id webhook (_webhooks st)) st)
                          webhook).

Definition update_field {A} (v : option A) (set : A -> WebhookConfig.t -> WebhookConfig.t)
    (w : WebhookConfig.t) : WebhookConfig.t :=
  match v with
  | Some x => set x w
  | None => w
  end.

(** [update_webhook]: the stored object is changed in place. *)
Definition update_webhook (st : t) (webhook_id : string)
    (name url : option string) (events : option (list WebhookEventType.t))
    (status : option WebhookStatus.t) (headers : option (gmap string string))
    (now : datetime) : option WebhookConfig.t * t :=
  match dict_get webhook_id (_webhooks st) with
  | None => (None, st)
  | Some webhook =>
      let webhook := update_field name WebhookConfig.set_name webhook in
      let webhook := update_field url WebhookConfig.set_url webhook in
      let webhook := update_field events WebhookConfig.set_events webhook in
      let webhook := update_field status WebhookConfig.set_status webhook in
      let webhook := update_field headers WebhookConfig.set_headers webhook in
      let webhook := WebhookConfig.set_updated_at now webhook in
      (Some webhook,
       _save_webhook (with_webhooks (dict_set webhook_id webhook (_webhooks st)) st)
                     webhook)
  end.

(** [delete_webhook]: the entry leaves the dictionary; the deletion of
    the Redis key fails at [get_client] and is logged. *)
Definition delete_webhook (st : t) (webhook_id : string) : bool * t :=
  match dict_get webhook_id (_webhooks st) with
  | None => (false, st)
  | Some _ => (true, with_webhooks (dict_del webhook_id (_webhooks st)) st)
  end.

(** [get_webhook] *)
Definition get_webhook (st : t) (webhook_id : string) : option WebhookConfig.t :=
  dict_get webhook_id (_webhooks st).

(** The test of [trigger_event] on one endpoint. *)
Definition subscribed (event_type : WebhookEventType.t) (webhook : WebhookConfig.t)
  : bool :=
  bool_decide (WebhookConfig.status webhook = WebhookStatus.ACTIVE)
  && (bool_decide (WebhookEventType.ALL ∈ WebhookConfig.events webhook)
      || bool_decide (event_type ∈ WebhookConfig.events webhook)).

(** [_queue_delivery]; [delivery_id] stands for the fresh UUID. *)
Definition _queue_delivery (st : t) (webhook : WebhookConfig.t)
    (event : WebhookEvent.t) (delivery_id : string) (now : datetime) : t :=
  let delivery :=
    WebhookDelivery.mk delivery_id (WebhookConfig.id webhook)
      (WebhookEvent.type event) event DeliveryStatus.PENDING 0
      (WebhookConfig.retry_count webhook) now now None None None None None in
  let st := _store_delivery st delivery in
  with_queue (_delivery_queue st ++ [delivery]) st.

(** [trigger_event]; [event_id] is the fresh UUID of the event and
    [delivery_ids] gives the fresh UUID of the n-th delivery queued. The
    loop runs over the values of [_webhooks] and keeps the number of
    deliveries queued so far. *)
Definition trigger_event (st : t) (event_type : WebhookEventType.t)
    (data : string) (metadata : option string) (event_id : string)
    (delivery_ids : nat -> string) (now : datetime) : t :=
  let event := WebhookEvent.mk event_id event_type now data (default "{}" metadata) in
  (fold_left
     (fun (acc : t * nat) (kw : string * WebhookConfig.t) =>
        if subscribed event_type kw.2
        then (_queue_delivery acc.1 kw.2 event (delivery_ids acc.2) now, S acc.2)
        else acc)
     (_webhooks st) (st, O)).1.

(** The headers of the request: the entries of [webhook.headers] come
    last in the dictionary display and replace entries with the same
    key. *)
Definition request_headers (rt : Runtime) (webhook : WebhookConfig.t)
    (delivery : WebhookDelivery.t) (signature : string) (now : datetime)
  : gmap string string :=
  WebhookConfig.headers webhook
  ∪ list_to_map
      [ ("Content-Type", "application/json");
        ("X-Webhook-ID", WebhookConfig.id webhook);
        ("X-Webhook-Signature", signature);
        ("X-Webhook-Timestamp", isoformat rt now);
        ("X-Delivery-ID", WebhookDelivery.id delivery);
        ("X-Attempt", str_int rt (WebhookDelivery.attempt_count delivery)) ].

(** The [except] branch of [_process_delivery]. The exponent
    [attempt_count - 1] is not negative when the counter was not negative
    before the attempt; the properties of the delay assume that. *)
Definition on_failure (webhook : WebhookConfig.t) (delivery : WebhookDelivery.t)
    (error_msg : string) (now : datetime) : WebhookConfig.t * WebhookDelivery.t :=
  let delivery := WebhookDelivery.set_error error_msg delivery in
  let webhook :=
    WebhookConfig.set_failure_count (WebhookConfig.failure_count webhook + 1) webhook in
  if WebhookDelivery.max_attempts delivery <=? WebhookDelivery.attempt_count delivery
  then
    let delivery := WebhookDelivery.set_status DeliveryStatus.FAILED delivery in
    if 10 <=? WebhookConfig.failure_count webhook
    then (WebhookConfig.set_status WebhookStatus.FAILED webhook, delivery)
    else (webhook, delivery)
  else
    let delivery := WebhookDelivery.set_status DeliveryStatus.RETRYING delivery in
    let delay :=
      WebhookConfig.retry_delay_seconds webhook
      * 2 ^ (WebhookDelivery.attempt_count delivery - 1) in
    (webhook, WebhookDelivery.set_scheduled_for (now + delay) delivery).

(** One attempt: the part of [_process_delivery] between the lookup of
    the endpoint and the final writes. It gives the endpoint and the
    delivery as the attempt leaves them, and the request posted. *)
Definition attempt (rt : Runtime) (webhook : WebhookConfig.t)
    (delivery : WebhookDelivery.t) (outcome : Outcome) (duration : Q)
    (now : datetime) : WebhookConfig.t * WebhookDelivery.t * Request :=
  let delivery :=
    WebhookDelivery.set_status DeliveryStatus.PENDING
      (WebhookDelivery.set_attempt_count (WebhookDelivery.attempt_count delivery + 1)
         delivery) in
  let payload_json := json_dumps rt (WebhookDelivery.payload delivery) in
  let signature :=
    WebhookService._sign_payload payload_json (WebhookConfig.secret webhook) in
  let request :=
    mkRequest (WebhookConfig.url webhook) payload_json
              (request_headers rt webhook delivery signature now)
              (WebhookConfig.timeout_seconds webhook) in
  match outcome with
  | Response code text =>
      let delivery :=
        WebhookDelivery.set_response code
          (if String.eqb text "" then None else Some (slice rt 1000 text))
          duration delivery in
      if (200 <=? code) && (code <? 300)
      then
        let delivery :=
          WebhookDelivery.set_delivered_at now
            (WebhookDelivery.set_status DeliveryStatus.DELIVERED delivery) in
        let webhook :=
          WebhookConfig.set_failure_count 0
            (WebhookConfig.set_last_delivery_at now
               (WebhookConfig.set_success_count
                  (WebhookConfig.success_count webhook + 1) webhook)) in
        (webhook, delivery, request)
      else
        (on_failure webhook delivery
           ("HTTP " ++ str_int rt code ++ ": " ++ slice rt 200 text) now,
         request)
  | Raised message => (on_failure webhook delivery message now, request)
  end.

(** [_process_delivery]: a delivery whose endpoint is gone is dropped.
    The call is taken as one step: nothing else runs while it awaits the
    POST. The two final writes ([_store_delivery], [_save_webhook]) store
    nothing; the endpoint in [_webhooks] is the object the attempt has
    changed. *)
Definition _process_delivery (rt : Runtime) (st : t) (delivery : WebhookDelivery.t)
    (outcome : Outcome) (duration : Q) (now : datetime) : t :=
  match dict_get (WebhookDelivery.webhook_id delivery) (_webhooks st) with
  | None => st
  | Some webhook =>
      let '(webhook, delivery, request) :=
        attempt rt webhook delivery outcome duration now in
      let st :=
        with_posted (posted st ++ [request])
          (with_webhooks
             (dict_set (WebhookDelivery.webhook_id delivery) webhook (_webhooks st))
             st) in
      _save_webhook (_store_delivery st delivery) webhook
  end.

(** One iteration of [_delivery_worker]: the oldest queued delivery is
    processed; with an empty queue nothing happens. *)
Definition worker_step (rt : Runtime) (st : t) (outcome : Outcome) (duration : Q)
    (now : datetime) : t :=
  match _delivery_queue st with
  | [] => st
  | delivery :: rest =>
      _process_delivery rt (with_queue rest st) delivery outcome duration now
  end.

(** One iteration of [_retry_scheduler] after its sleep:
    [redis_manager.get_client()] raises before any key is read, the
    handler logs "Retry scheduler error", and nothing is put back in the
    queue. *)
Definition retry_tick (st : t) (now : datetime) : t := st.

(** Whether a POST ended with a 2xx response. *)
Definition is_success (outcome : Outcome) : bool :=
  match outcome with
  | Response code _ => (200 <=? code) && (code <? 300)
  | Raised _ => false
  end.

(** What happens to the service, one step at a time: the calls of its
    public methods, an iteration of a delivery worker with what the POST
    came back with, an iteration of the retry scheduler, and the Redis
    server going down or coming up, which the service does not notice. *)
Inductive Step :=
| Register (name url : string) (events : list WebhookEventType.t)
    (secret : option string) (headers : option (gmap string string))
    (metadata : option string) (webhook_id generated : string)
| Update (webhook_id : string) (name url : option string)
    (events : option (list WebhookEventType.t)) (status : option WebhookStatus.t)
    (headers : option (gmap string string))
| Delete (webhook_id : string)
| Trigger (event_type : WebhookEventType.t) (data : string)
    (metadata : option string) (event_id : string) (delivery_ids : nat -> string)
| Work (outcome : Outcome) (duration : Q)
| RetryTick
| Redis (up : bool).

Definition step (rt : Runtime) (st : t) (s : Step) (now : datetime) : t :=
  match s with
  | Register name url events secret headers metadata webhook_id generated =>
      (register_webhook st name url events secret headers metadata webhook_id
         generated now).2
  | Update webhook_id name url events status headers =>
      (update_webhook st webhook_id name url events status headers now).2
  | Delete webhook_id => (delete_webhook st webhook_id).2
  | Trigger event_type data metadata event_id delivery_ids =>
      trigger_event st event_type data metadata event_id delivery_ids now
  | Work outcome duration => worker_step rt st outcome duration now
  | RetryTick => retry_tick st now
  | Redis up =>
      mk (_webhooks st) (_delivery_queue st) up (redis_configs st)
         (redis_deliveries st) (posted st)
  end.

Fixpoint run (rt : Runtime) (st : t) (steps : list (Step * datetime)) : t :=
  match steps with
  | [] => st
  | (s, now) :: rest => run rt (step rt st s now) rest
  end.






(** What a delivery queued for [webhook] at time [now] looks like. *)
Definition fresh_for (event_type : WebhookEventType.t) (now : datetime)
    (d : WebhookDelivery.t) (kw : string * WebhookConfig.t) : Prop :=
  WebhookDelivery.webhook_id d = WebhookConfig.id kw.2
  ∧ WebhookDelivery.max_attempts d = WebhookConfig.retry_count kw.2
  ∧ WebhookDelivery.status d = DeliveryStatus.PENDING
  ∧ WebhookDelivery.attempt_count d = 0
  ∧ WebhookDelivery.event_type d = event_type
  ∧ WebhookDelivery.scheduled_for d = now.

(** [_webhooks] is a dictionary (no key twice) and every endpoint is
    stored under its own id. *)
Definition keys_ok (st : t) : Prop :=
  NoDup (_webhooks st).*1
  ∧ forall k w, (k, w) ∈ _webhooks st -> WebhookConfig.id w = k.


End WebhookDispatcher.

(** Fixtures of the webhook examples. *)
Module WebhookFixtures.

Definition runtime : WebhookDispatcher.Runtime :=
  WebhookDispatcher.mkRuntime (fun e => WebhookEvent.data e) (fun _ => "t")
                              (fun _ => "n") (fun _ s => s).

Definition hook : WebhookConfig.t :=
  WebhookConfig.mk "w1" "hook" "http://unreachable/" [WebhookEventType.ALL] "s3cr3t"
                   WebhookStatus.ACTIVE ∅ "{}" 3 60 30 0 0 None 0 0.

Definition first_delivery : WebhookDelivery.t :=
  WebhookDelivery.mk "d1" "w1" WebhookEventType.TASK_FAILED
    (WebhookEvent.mk "e1" WebhookEventType.TASK_FAILED 0 "{}" "{}")
    DeliveryStatus.PENDING 0 3 0 0 None None None None None.

(** One endpoint and one queued delivery for it; nothing stored yet. *)
Definition one_hook : WebhookDispatcher.t :=
  WebhookDispatcher.mk [("w1"%string, hook)] [first_delivery] true ∅ ∅ [].

End WebhookFixtures.

(** * Properties *)

Example round_constants :
  length Sha256.K = 64%nat
  /\ nth 0 Sha256.K 0 = 0x428a2f98 /\ nth 63 Sha256.K 0 = 0xc67178f2
  /\ Sha256.ra Sha256.H0 = 0x6a09e667 /\ Sha256.rh Sha256.H0 = 0x5be0cd19.
Proof. vm_compute. repeat split; reflexivity. Qed.

Example sha256_abc :
  Sha256.hexdigest (Sha256.sha256 (Sha256.encode "abc"))
  = "ba7816bf8f01cfea414140de5dae2223b00361a396177a9cb410ff61f20015ad"%string.
Proof. vm_compute. reflexivity. Qed.


Example hmac_rfc4231_case6 :
  Sha256.hexdigest
    (Sha256.hmac_sha256 (repeat 170 131)
       (Sha256.encode "Test Using Larger Than Block-Size Key - Hash Key First"))
  = "60e431591ee0b67f0d8a26aacbf5b77f8e0bc6213728c5140546040f0ee37f54"%string.
Proof. vm_compute. reflexivity. Qed.

(** ** Webhook signature *)

Section Signature.
Import Sha256 WebhookService.




















End Signature.


(** ** Task scheduler: completion, failure, assignment *)

Section SchedulerOperations.
Import TaskScheduler TaskStatus Fixtures.

Lemma free_agent_tasks (owner : option UUID) (now : datetime) (db : Store) :
  tasks (free_agent owner now db) = tasks db.
Proof.
  unfold free_agent. destruct owner as [a|]; [|reflexivity].
  destruct (agents db !! a); reflexivity.
Qed.

Lemma free_agent_none (now : datetime) (db : Store) : free_agent None now db = db.
Proof. reflexivity. Qed.

Lemma free_agent_owner (a : UUID) (agent : Agent) (now : datetime) (db : Store) :
  agents db !! a = Some agent ->
  agents (free_agent (Some a) now db) !! a
  = Some (set_agent_updated_at now (set_agent_status AgentStatus.IDLE agent)).
Proof.
  intros Ha. unfold free_agent. rewrite Ha. simpl. apply lookup_insert_eq.
Qed.

(** C10. Completing an in-progress task owned by an existing agent sets that
    agent's status to idle whatever the agent's status was before. *)
Theorem complete_task_frees_owner (db : Store) (id a : UUID) (task : Task)
    (agent : Agent) (result : string) (now : datetime) :
  get_task db id = Some task ->
  status task = IN_PROGRESS ->
  agent_id task = Some a ->
  agents db !! a = Some agent ->
  exists db',
    complete_task db id result now = (true, db')
    /\ agents db' !! a
       = Some (set_agent_updated_at now (set_agent_status AgentStatus.IDLE agent))
    /\ (forall agent', agents db' !! a = Some agent' ->
                       agent_status agent' = AgentStatus.IDLE)
    /\ (exists task', tasks db' !! id = Some task' /\ status task' = COMPLETED).
Proof.
  intros Ht Hs Ho Ha. unfold complete_task. rewrite Ht, Hs. simpl.
  eexists. split; [reflexivity|]. simpl. rewrite Ho.
  assert (Hfree : agents (free_agent (Some a) now
                    (put_task id
                       (set_task_output_data (OutResult result)
                          (set_task_completed_at now
                             (set_task_status COMPLETED task))) db)) !! a
                  = Some (set_agent_updated_at now
                            (set_agent_status AgentStatus.IDLE agent))).
  { apply free_agent_owner. exact Ha. }
  split; [exact Hfree|]. split.
  - intros agent' H'. rewrite Hfree in H'. injection H' as <-. reflexivity.
  - rewrite free_agent_tasks. simpl. rewrite lookup_insert_eq.
    eexists. split; reflexivity.
Qed.

(** The owner of the completed task was offline; it is idle afterwards. *)
Lemma complete_task_frees_owner_witness :
  exists db',
    complete_task (one_task IN_PROGRESS AgentStatus.OFFLINE) 1%N "done" 100
    = (true, db')
    /\ agents db' !! 7%N
       = Some (set_agent_updated_at 100
                 (set_agent_status AgentStatus.IDLE (agent_in AgentStatus.OFFLINE)))
    /\ (forall agent', agents db' !! 7%N = Some agent' ->
                       agent_status agent' = AgentStatus.IDLE)
    /\ (exists task', tasks db' !! 1%N = Some task' /\ status task' = COMPLETED).
Proof.
  apply (complete_task_frees_owner (one_task IN_PROGRESS AgentStatus.OFFLINE)
           1%N 7%N (task_in IN_PROGRESS (Some 7%N)) (agent_in AgentStatus.OFFLINE)
           "done" 100); reflexivity.
Defined.

(** In the retry branch [fail_task] clears the task's owner before it
    looks the owner up, so no agent row is written. *)
Lemma fail_task_retry_keeps_agents (self : TaskScheduler.t) (db : Store)
    (id : UUID) (task : Task) (error : string) (now : datetime) :
  get_task db id = Some task ->
  default 0 (retry_count (metadata_ task)) < max_retries self ->
  exists db',
    fail_task self db id error true now = (true, db')
    /\ agents db' = agents db
    /\ (exists task', tasks db' !! id = Some task'
                      /\ status task' = RETRYING /\ agent_id task' = None).
Proof.
  intros Ht Hr. unfold fail_task. rewrite Ht.
  apply Z.ltb_lt in Hr. rewrite Hr. simpl.
  eexists. split; [reflexivity|]. simpl. split; [reflexivity|].
  rewrite lookup_insert_eq. eexists. split; [reflexivity|]. split; reflexivity.
Qed.

(** In the other branch the owner, when it exists, is set to idle. *)
Lemma fail_task_final_frees_owner (self : TaskScheduler.t) (db : Store)
    (id a : UUID) (task : Task) (agent : Agent) (error : string) (retry : bool)
    (now : datetime) :
  get_task db id = Some task ->
  retry && (default 0 (retry_count (metadata_ task)) <? max_retries self) = false ->
  agent_id task = Some a ->
  agents db !! a = Some agent ->
  exists db',
    fail_task self db id error retry now = (true, db')
    /\ agents db' !! a
       = Some (set_agent_updated_at now (set_agent_status AgentStatus.IDLE agent))
    /\ (exists task', tasks db' !! id = Some task' /\ status task' = FAILED).
Proof.
  intros Ht Hr Ho Ha. unfold fail_task. rewrite Ht, Hr. simpl.
  eexists. split; [reflexivity|]. simpl. rewrite Ho. split.
  - apply free_agent_owner. exact Ha.
  - rewrite free_agent_tasks. simpl. rewrite lookup_insert_eq.
    eexists. split; reflexivity.
Qed.

(** C3. [fail_task] with retries left on an in-progress task owned by a busy
    agent: the task moves to retrying and the [task.failed] event carries the
    retry count, but the formerly owning agent is still busy. *)
Theorem fail_task_retry_leaves_owner_busy :
  exists db',
    fail_task scheduler (one_task IN_PROGRESS AgentStatus.BUSY) 1%N "boom" true 100
    = (true, db')
    /\ (status <$> tasks db' !! 1%N) = Some RETRYING
    /\ (agent_status <$> agents db' !! 7%N) = Some AgentStatus.BUSY
    /\ published db' = [TaskFailed 1%N None "boom" 0 (Some "trace-1"%string)].
Proof.
  eexists. split; [reflexivity|]. vm_compute. repeat split; reflexivity.
Qed.

(** [assign_task] returns [True] exactly for a pending or queued task and
    an idle agent. *)
Lemma assign_task_accepts_iff (db : Store) (id a : UUID) (now : datetime) :
  (assign_task db id a now).1 = true
  <-> exists task agent,
        get_task db id = Some task
        /\ (status task = PENDING \/ status task = QUEUED)
        /\ agents db !! a = Some agent
        /\ agent_status agent = AgentStatus.IDLE.
Proof.
  unfold assign_task. split.
  - destruct (get_task db id) as [task|]; [|discriminate].
    destruct (status task) eqn:Hs; simpl; try discriminate;
      (destruct (agents db !! a) as [agent|]; [|discriminate]);
      (destruct (agent_status agent) eqn:Hag; simpl; try discriminate);
      intros _; exists task, agent; rewrite Hs; auto.
  - intros (task & agent & -> & Hs & -> & ->).
    destruct Hs as [-> | ->]; reflexivity.
Qed.

(** A rejected assignment changes nothing. *)
Lemma assign_task_rejected (db : Store) (id a : UUID) (now : datetime) :
  (assign_task db id a now).1 = false -> (assign_task db id a now).2 = db.
Proof.
  unfold assign_task.
  destruct (get_task db id) as [task|]; [|reflexivity].
  destruct (negb _); [reflexivity|].
  destruct (agents db !! a) as [agent|]; [|reflexivity].
  destruct (negb _); [reflexivity|]. discriminate.
Qed.

(** A task in retrying is rejected for every agent. *)
Lemma assign_task_rejects_retrying (db : Store) (id a : UUID) (task : Task)
    (now : datetime) :
  get_task db id = Some task -> status task = RETRYING ->
  assign_task db id a now = (false, db).
Proof. intros Ht Hs. unfold assign_task. rewrite Ht, Hs. reflexivity. Qed.

(** Once in retrying, a task is refused by every operation that tests the
    status: only [fail_task] still accepts it. *)
Lemma retrying_task_is_refused (db : Store) (id a : UUID) (task : Task)
    (result : string) (frac : Q) (message : option string) (now : datetime) :
  get_task db id = Some task -> status task = RETRYING ->
  assign_task db id a now = (false, db)
  /\ start_task db id now = (false, db)
  /\ complete_task db id result now = (false, db)
  /\ cancel_task db id now = (false, db)
  /\ update_task_progress db id frac message now = (false, db).
Proof.
  intros Ht Hs.
  unfold start_task, complete_task, cancel_task, update_task_progress, assign_task.
  rewrite Ht, Hs. repeat split; reflexivity.
Qed.

(** C7. A task in retrying and an idle agent: the assignment is refused and
    nothing changes, although the scheduler loop offers the task for
    assignment. *)
Theorem assign_task_refuses_retrying_task :
  let db := unowned_task RETRYING AgentStatus.IDLE in
  (agent_status <$> agents db !! 7%N) = Some AgentStatus.IDLE
  /\ get_ready_tasks db 10 = [(1%N, task_in RETRYING None)]
  /\ assign_task db 1%N 7%N 100 = (false, db).
Proof. vm_compute. repeat split; reflexivity. Qed.

End SchedulerOperations.


(** ** Terminal tasks *)

Section TerminalTasks.
Import TaskScheduler TaskStatus Fixtures.

(** Every operation that tests the status first refuses a terminal task and
    leaves the store as it was. *)
Lemma guarded_operations_keep_terminal_task (db : Store) (id a : UUID)
    (task : Task) (result : string) (frac : Q) (message : option string)
    (now : datetime) :
  get_task db id = Some task ->
  Spec.terminal (status task) = true ->
  start_task db id now = (false, db)
  /\ complete_task db id result now = (false, db)
  /\ cancel_task db id now = (false, db)
  /\ update_task_progress db id frac message now = (false, db)
  /\ assign_task db id a now = (false, db).
Proof.
  intros Ht Hs.
  unfold start_task, complete_task, cancel_task, update_task_progress, assign_task.
  rewrite Ht. destruct (status task); try discriminate; repeat split; reflexivity.
Qed.

(** C2. [fail_task] on a completed task: with retries left the task goes
    back to retrying and loses its owner; without retry it becomes failed
    and its output is overwritten. *)
Theorem fail_task_rewrites_completed_task :
  let db := one_task COMPLETED AgentStatus.IDLE in
  Spec.terminal COMPLETED = true
  /\ (exists db',
        fail_task scheduler db 1%N "late" true 100 = (true, db')
        /\ (status <$> tasks db' !! 1%N) = Some RETRYING
        /\ (agent_id <$> tasks db' !! 1%N) = Some None)
  /\ (exists db',
        fail_task scheduler db 1%N "late" false 100 = (true, db')
        /\ (status <$> tasks db' !! 1%N) = Some FAILED
        /\ (output_data <$> tasks db' !! 1%N) = Some (OutError "late")).
Proof.
  split; [reflexivity|]. split.
  - eexists. split; [reflexivity|]. vm_compute. split; reflexivity.
  - eexists. split; [reflexivity|]. vm_compute. split; reflexivity.
Qed.

End TerminalTasks.

(** ** Dependencies *)

Section Dependencies.
Import TaskScheduler Fixtures Runs.

(** What [add_dependency] tests. *)
Lemma add_dependency_accepts_iff (db : Store) (a b : UUID) :
  (add_dependency db a b).1 = true
  <-> a ≠ b
      /\ is_Some (tasks db !! a) /\ is_Some (tasks db !! b)
      /\ mkDep a b ∉ task_dependencies db.
Proof.
  unfold add_dependency, get_task.
  destruct (bool_decide_reflect (a = b)) as [Heq|Hne]; simpl.
  { split; [discriminate | intros (H & _); contradiction]. }
  destruct (tasks db !! a) as [ta|] eqn:Ha.
  2:{ split; [discriminate | intros (_ & [? H] & _); discriminate]. }
  destruct (tasks db !! b) as [tb|] eqn:Hb.
  2:{ split; [discriminate | intros (_ & _ & [? H] & _); discriminate]. }
  destruct (bool_decide_reflect (mkDep a b ∈ task_dependencies db)) as [Hin|Hnin]; simpl.
  - split; [discriminate | intros (_ & _ & _ & H); contradiction].
  - split; [|reflexivity]. intros _. repeat split; eauto.
Qed.

Lemma add_dependency_tasks (db : Store) (a b : UUID) :
  tasks (add_dependency db a b).2 = tasks db.
Proof.
  unfold add_dependency.
  destruct (bool_decide _); [reflexivity|].
  destruct (get_task db a); [|reflexivity].
  destruct (get_task db b); [|reflexivity].
  destruct (bool_decide _); reflexivity.
Qed.

(** An accepted call appends the pair; a rejected call changes nothing. *)
Lemma add_dependency_table (db : Store) (a b : UUID) :
  task_dependencies (add_dependency db a b).2
  = if (add_dependency db a b).1
    then task_dependencies db ++ [mkDep a b]
    else task_dependencies db.
Proof.
  unfold add_dependency.
  destruct (bool_decide _); [reflexivity|].
  destruct (get_task db a); [|reflexivity].
  destruct (get_task db b); [|reflexivity].
  destruct (bool_decide _); reflexivity.
Qed.

Lemma add_dependency_ok (db : Store) (a b : UUID) :
  dependencies_ok db -> dependencies_ok (add_dependency db a b).2.
Proof.
  intros [Hnd Hall]. unfold dependencies_ok.
  rewrite add_dependency_table, add_dependency_tasks.
  destruct (add_dependency db a b).1 eqn:Hacc; [|split; assumption].
  apply add_dependency_accepts_iff in Hacc as (Hne & Ha & Hb & Hnin).
  split.
  - apply NoDup_app. repeat split; [exact Hnd | | apply NoDup_singleton].
    intros d Hd Hd'. apply list_elem_of_singleton in Hd'. subst d. contradiction.
  - apply Forall_app. split; [exact Hall|].
    constructor; [|constructor]. simpl. auto.
Qed.

Lemma add_dependencies_ok (calls : list (UUID * UUID)) (db : Store) :
  dependencies_ok db -> dependencies_ok (add_dependencies db calls).
Proof.
  revert db. induction calls as [|c calls IH]; intros db Hok; simpl.
  - exact Hok.
  - apply IH. apply add_dependency_ok. exact Hok.
Qed.

(** C1, as the code has it. [add_dependency] accepts a pair exactly when
    its two tasks are distinct, both exist, and the pair is not yet in the
    table, whether or not it closes a cycle. After any sequence of calls a
    table without duplicate pairs, without self-dependencies and with
    existing ends keeps these three properties. *)
Theorem add_dependency_sequence_invariant (db : Store) (calls : list (UUID * UUID)) :
  dependencies_ok db ->
  (forall a b,
      (add_dependency db a b).1 = true
      <-> a ≠ b
          /\ is_Some (tasks db !! a) /\ is_Some (tasks db !! b)
          /\ mkDep a b ∉ task_dependencies db)
  /\ dependencies_ok (add_dependencies db calls).
Proof.
  intros Hok. split.
  - intros a b. apply add_dependency_accepts_iff.
  - apply add_dependencies_ok. exact Hok.
Qed.

Lemma two_tasks_ok : dependencies_ok two_tasks.
Proof. split; [apply NoDup_nil_2 | constructor]. Qed.

Lemma add_dependency_sequence_invariant_witness :
  dependencies_ok two_tasks
  /\ (forall a b,
         (add_dependency two_tasks a b).1 = true
         <-> a ≠ b
             /\ is_Some (tasks two_tasks !! a) /\ is_Some (tasks two_tasks !! b)
             /\ mkDep a b ∉ task_dependencies two_tasks)
  /\ dependencies_ok (add_dependencies two_tasks [(1%N, 2%N); (2%N, 1%N); (1%N, 1%N)]).
Proof.
  split; [exact two_tasks_ok|].
  apply (add_dependency_sequence_invariant two_tasks
           [(1%N, 2%N); (2%N, 1%N); (1%N, 1%N)] two_tasks_ok).
Defined.

(** C1, as the specification has it, fails: task 1 depends on task 2 and
    task 2 on task 1; both calls are accepted and the table holds a
    cycle. *)
Lemma add_dependency_closes_cycle :
  let r1 := add_dependency two_tasks 1%N 2%N in
  let r2 := add_dependency r1.2 2%N 1%N in
  r1.1 = true /\ r2.1 = true /\ ~ Spec.acyclic (task_dependencies r2.2).
Proof.
  split; [reflexivity|]. split; [reflexivity|].
  intros Hacyclic. apply (Hacyclic 1%N).
  apply (Spec.reaches_step _ 1%N 2%N 1%N).
  - vm_compute. apply list_elem_of_here.
  - apply Spec.reaches_edge. vm_compute. apply list_elem_of_further, list_elem_of_here.
Qed.

(** The cycle scenario of the specification: with T2 -> T1 and T3 -> T2
    in place, T1 -> T3 is accepted as well and is added to the table. *)
Example cycle_scenario_is_accepted :
  let db := add_dependencies three_tasks [(2%N, 1%N); (3%N, 2%N)] in
  add_dependency db 1%N 3%N
  = (true,
     mkStore (tasks db) (agents db)
             [mkDep 2%N 1%N; mkDep 3%N 2%N; mkDep 1%N 3%N] (published db)).
Proof. vm_compute. reflexivity. Qed.

End Dependencies.


(** ** Ready tasks *)

Section ReadyTasks.
Import TaskScheduler TaskStatus Fixtures.

#[local] Instance row_order_total : Total row_order.
Proof. intros r1 r2. unfold row_order. lia. Qed.

#[local] Instance row_order_trans : Transitive row_order.
Proof. intros r1 r2 r3. unfold row_order. lia. Qed.

Lemma StronglySorted_sublist {A} (R : relation A) (l1 l2 : list A) :
  l1 `sublist_of` l2 -> StronglySorted R l2 -> StronglySorted R l1.
Proof.
  induction 1 as [|x l1 l2 Hsub IH|x l1 l2 Hsub IH]; intros Hs.
  - constructor.
  - apply StronglySorted_inv in Hs as [Hs Hall]. constructor; [auto|].
    apply Forall_forall. intros y Hy. rewrite Forall_forall in Hall.
    apply Hall. eapply elem_of_sublist; eassumption.
  - apply StronglySorted_inv in Hs as [Hs _]. auto.
Qed.

Lemma candidates_sorted (db : Store) (limit : nat) :
  StronglySorted row_order (candidates db limit).
Proof.
  unfold candidates.
  eapply StronglySorted_sublist; [apply sublist_take|].
  apply StronglySorted_merge_sort; apply _.
Qed.

Lemma candidates_rows (db : Store) (limit : nat) (r : UUID * Task) :
  r ∈ candidates db limit ->
  tasks db !! r.1 = Some r.2 /\ (status r.2 = PENDING \/ status r.2 = RETRYING).
Proof.
  unfold candidates. intros Hin.
  apply (fun H => elem_of_sublist _ _ _ H (sublist_take _ limit)) in Hin.
  rewrite merge_sort_Permutation in Hin.
  apply list_elem_of_filter in Hin as [Hst Hin].
  destruct r as [k t]. apply elem_of_map_to_list in Hin. auto.
Qed.

Lemma all_deps_completed_spec (db : Store) (id : UUID) :
  all_deps_completed db id = true -> Spec.deps_completed db id.
Proof.
  unfold all_deps_completed, Spec.deps_completed.
  intros Hall d dep_task Hd Hid Hdep.
  rewrite forallb_forall in Hall.
  specialize (Hall d). unfold get_task in Hall. rewrite Hdep in Hall.
  eapply bool_decide_eq_true_1. apply Hall.
  apply list_elem_of_In, list_elem_of_filter. auto.
Qed.

(** C4, as the code has it. [get_ready_tasks] returns at most [limit] rows,
    each a stored task that is pending or retrying and whose existing
    dependencies are all completed, ordered by priority (highest first)
    and then by creation time (oldest first); [row_order] does not read
    the deadline. *)
Theorem get_ready_tasks_order (db : Store) (limit : nat) :
  StronglySorted row_order (get_ready_tasks db limit)
  /\ (length (get_ready_tasks db limit) <= limit)%nat
  /\ Forall (fun r => tasks db !! r.1 = Some r.2
                      /\ (status r.2 = PENDING \/ status r.2 = RETRYING)
                      /\ Spec.deps_completed db r.1)
            (get_ready_tasks db limit).
Proof.
  unfold get_ready_tasks. split; [|split].
  - eapply StronglySorted_sublist; [apply sublist_filter | apply candidates_sorted].
  - etransitivity; [apply length_filter|].
    unfold candidates. rewrite length_take. lia.
  - apply Forall_forall. intros r Hin.
    apply list_elem_of_filter in Hin as [Hdeps Hin].
    apply candidates_rows in Hin as [Hrow Hst].
    split; [exact Hrow|]. split; [exact Hst|].
    apply all_deps_completed_spec. exact Hdeps.
Qed.

(** C4, as the specification has it, fails: the overdue task with
    priority 0 comes after the task with priority 5 that has no deadline. *)
Lemma get_ready_tasks_ignores_deadline :
  ~ (forall db limit now, Spec.overdue_first now (get_ready_tasks db limit)).
Proof.
  intros H.
  specialize (H overdue_store 10%nat 100 1%nat 0%nat).
  assert (Hlt : (1 < 0)%nat); [|lia].
  eapply H; vm_compute; reflexivity.
Qed.

End ReadyTasks.

(** ** Agent manager *)

Section Agents.
Import AgentManager AgentStatus Fixtures.

(** C6, as the code has it. [update_agent_status] on an existing agent
    stores the requested status whatever the current one is, stamps
    [updated_at], refreshes the heartbeat when the new status is idle or
    busy, and returns the agent; it returns nothing, and changes nothing,
    only when the agent does not exist. *)
Theorem update_agent_status_unconditional (db : Store) (id : UUID)
    (new : AgentStatus.t) (now : datetime) :
  (get_agent db id = None -> update_agent_status db id new now = (None, db))
  /\ (forall agent,
        get_agent db id = Some agent ->
        exists agent',
          update_agent_status db id new now = (Some agent', put_agent id agent' db)
          /\ agent_status agent' = new
          /\ agent_updated_at agent' = now
          /\ last_heartbeat agent'
             = (if bool_decide (new = IDLE) || bool_decide (new = BUSY)
                then Some now else last_heartbeat agent)
          /\ name agent' = name agent /\ type agent' = type agent
          /\ skills agent' = skills agent).
Proof.
  unfold update_agent_status. split.
  - intros ->. reflexivity.
  - intros agent ->. eexists. split; [reflexivity|].
    destruct new; simpl; repeat split; reflexivity.
Qed.

Lemma update_agent_status_unconditional_witness :
  exists agent',
    update_agent_status (one_task TaskStatus.PENDING OFFLINE) 7%N BUSY 100
    = (Some agent', put_agent 7%N agent' (one_task TaskStatus.PENDING OFFLINE))
    /\ agent_status agent' = BUSY
    /\ agent_updated_at agent' = 100
    /\ last_heartbeat agent' = Some 100
    /\ name agent' = name (agent_in OFFLINE) /\ type agent' = type (agent_in OFFLINE)
    /\ skills agent' = skills (agent_in OFFLINE).
Proof.
  apply (proj2 (update_agent_status_unconditional
                  (one_task TaskStatus.PENDING OFFLINE) 7%N BUSY 100)
               (agent_in OFFLINE)).
  reflexivity.
Defined.

(** C6, as the specification has it, fails: offline to busy is not a
    transition of the state machine, yet it is applied. *)
Lemma update_agent_status_applies_disallowed :
  Spec.allowed_transition OFFLINE BUSY = false
  /\ (agent_status <$> agents (one_task TaskStatus.PENDING OFFLINE) !! 7%N)
     = Some OFFLINE
  /\ (agent_status <$>
        (update_agent_status (one_task TaskStatus.PENDING OFFLINE) 7%N BUSY 100).1)
     = Some BUSY
  /\ (agent_status <$>
        agents (update_agent_status (one_task TaskStatus.PENDING OFFLINE)
                  7%N BUSY 100).2 !! 7%N)
     = Some BUSY.
Proof. vm_compute. repeat split; reflexivity. Qed.

End Agents.


(** ** Choice of an available agent *)

Section AvailableAgent.
Import AgentManager AgentStatus Fixtures.

#[local] Instance heartbeat_desc_total : Total heartbeat_desc.
Proof.
  intros r1 r2. unfold heartbeat_desc.
  destruct (last_heartbeat r1.2), (last_heartbeat r2.2); auto. lia.
Qed.

#[local] Instance heartbeat_desc_trans : Transitive heartbeat_desc.
Proof.
  intros r1 r2 r3. unfold heartbeat_desc.
  destruct (last_heartbeat r1.2), (last_heartbeat r2.2), (last_heartbeat r3.2);
    auto; try contradiction. lia.
Qed.

Lemma heartbeat_desc_refl (r : UUID * Agent) : heartbeat_desc r r.
Proof. unfold heartbeat_desc. destruct (last_heartbeat r.2); [lia | exact I]. Qed.

Lemma idle_rows_elem (db : Store) (ty : option AgentType.t) (r : UUID * Agent) :
  r ∈ idle_rows db ty <-> agents db !! r.1 = Some r.2 /\ matches ty r.
Proof.
  unfold idle_rows. rewrite merge_sort_Permutation, list_elem_of_filter.
  destruct r as [k a]. rewrite elem_of_map_to_list. simpl. tauto.
Qed.

Lemma idle_rows_head (db : Store) (ty : option AgentType.t) (r : UUID * Agent) :
  head (idle_rows db ty) = Some r ->
  r ∈ idle_rows db ty /\ forall r', r' ∈ idle_rows db ty -> heartbeat_desc r r'.
Proof.
  intros Hhd.
  assert (Hsorted : StronglySorted heartbeat_desc (idle_rows db ty)).
  { apply StronglySorted_merge_sort; apply _. }
  apply head_Some in Hhd as [rest Hrows]. rewrite Hrows in *.
  split; [apply list_elem_of_here|].
  apply StronglySorted_inv in Hsorted as [_ Hall].
  intros r' Hr'. apply elem_of_cons in Hr' as [-> | Hr'].
  - apply heartbeat_desc_refl.
  - rewrite Forall_forall in Hall. auto.
Qed.

Lemma head_take_1 {A} (l : list A) : head (take 1 l) = head l.
Proof. destruct l; reflexivity. Qed.





End AvailableAgent.


(** ** Event consumer *)

Section Consumer.
Import EventConsumer Fixtures.

(** The errors logged while the handlers of an event run: one for each
    handler that raises, in registration order. *)
Lemma run_handlers_effect (event : EventDict) (hs : list Handler) (st : State) :
  let st' := fold_left (run_handler event) hs st in
  _running st' = _running st
  /\ committed st' = committed st
  /\ handled st' = handled st ++ map (fun h => (__name__ h, event)) hs
  /\ logged st'
     = logged st
       ++ omap (fun h => (fun e => HandlerError e (event_type event) (__name__ h))
                           <$> call h event) hs.
Proof.
  revert st. induction hs as [|h hs IH]; intros st; simpl.
  - rewrite !app_nil_r. auto.
  - destruct (IH (run_handler event st h)) as (Hr & Hc & Hh & Hl).
    rewrite Hr, Hc, Hh, Hl. unfold run_handler.
    destruct (call h event) as [e|]; simpl; rewrite <- !app_assoc; auto.
Qed.

(** C5, as the code has it. For a record whose value is an event, with
    manual commits, every handler registered for the event type is called
    once, in registration order, whether or not an earlier one raised; each
    exception is logged; and the offset after the record is committed in
    every case. *)
Theorem consume_record_commits (self : EventConsumer.t) (st : State)
    (message : Message) (event : EventDict) :
  value message = Some event ->
  enable_auto_commit self = false ->
  let st' := consume_record self st message in
  committed st'
  = <[(topic message, partition message) := offset message + 1]> (committed st)
  /\ handled st'
     = handled st ++ map (fun h => (__name__ h, event)) (handlers_for self event)
  /\ logged st'
     = logged st
       ++ omap (fun h => (fun e => HandlerError e (event_type event) (__name__ h))
                           <$> call h event) (handlers_for self event).
Proof.
  intros Hv Hauto. unfold consume_record, _process_message.
  rewrite Hv, Hauto. simpl.
  destruct (run_handlers_effect event (handlers_for self event) st)
    as (_ & Hc & Hh & Hl).
  rewrite Hc, Hh, Hl. auto.
Qed.

Lemma consume_record_commits_witness :
  let st' := consume_record failing_consumer fresh_consumer_state assigned_record in
  committed st'
  = <[("agent.tasks"%string, 0) := 42]> (committed fresh_consumer_state)
  /\ handled st' = [("on_assigned"%string, assigned_event)]
  /\ logged st'
     = [HandlerError "boom" (Some "task.assigned"%string) "on_assigned"].
Proof.
  apply (consume_record_commits failing_consumer fresh_consumer_state
           assigned_record assigned_event); reflexivity.
Defined.

(** C5, as the specification has it, fails: the only handler of the
    record raises, and the offset is committed all the same; delivering
    the record three times gives three logged errors and nothing else. *)
Lemma consume_commits_after_handler_error :
  let st1 := consume failing_consumer fresh_consumer_state
               [Delivered assigned_record] in
  let st3 := consume failing_consumer fresh_consumer_state
               [Delivered assigned_record; Delivered assigned_record;
                Delivered assigned_record] in
  call failing_handler assigned_event = Some "boom"%string
  /\ logged st1 = [HandlerError "boom" (Some "task.assigned"%string) "on_assigned"]
  /\ committed st1 !! ("agent.tasks"%string, 0) = Some 42
  /\ length (logged st3) = 3%nat
  /\ committed st3 !! ("agent.tasks"%string, 0) = Some 42.
Proof. vm_compute. repeat split; reflexivity. Qed.

End Consumer.


(** ** Scheduler calls: what every operation keeps *)

Section SchedulerCalls.
Import TaskScheduler TaskStatus SchedulerLoop Fixtures.

Lemma put_agent_tasks (k : UUID) (a : Agent) (db : Store) :
  tasks (put_agent k a db) = tasks db.
Proof. reflexivity. Qed.

(** Every call either leaves the task table as it is or rewrites the row
    of its subject, as [task_effect] says. *)
Lemma call_tasks (self : TaskScheduler.t) (db : Store) (c : Call) (now : datetime) :
  (tasks (call self db c now).2 = tasks db
   /\ ((call self db c now).1 = true ->
       (exists k d, c = AddDependency k d)
       \/ exists k frac message, c = UpdateTaskProgress k frac message))
  \/ exists t t',
       tasks db !! subject c = Some t
       /\ task_effect self now c t = Some t'
       /\ (call self db c now).1 = true
       /\ tasks (call self db c now).2 = <[subject c := t']> (tasks db).
Proof.
  destruct c as [k a|k|k frac message|k result|k error retry|k|k d]; simpl.
  - unfold assign_task, get_task.
    destruct (tasks db !! k) as [t|] eqn:Ht; [|left; split; [reflexivity | discriminate]].
    destruct (bool_decide (status t = PENDING) || bool_decide (status t = QUEUED))
      eqn:Hg; simpl; [|left; split; [reflexivity | discriminate]].
    destruct (agents db !! a) as [ag|]; [|left; split; [reflexivity | discriminate]].
    destruct (negb _); [left; split; [reflexivity | discriminate]|].
    right. exists t. eexists. rewrite Hg. repeat split; reflexivity.
  - unfold start_task, get_task.
    destruct (tasks db !! k) as [t|] eqn:Ht; [|left; split; [reflexivity | discriminate]].
    destruct (bool_decide (status t = QUEUED)) eqn:Hg; simpl; [|left; split; [reflexivity | discriminate]].
    right. exists t. eexists. rewrite Hg. repeat split; reflexivity.
  - unfold update_task_progress, get_task.
    destruct (tasks db !! k) as [t|] eqn:Ht; [|left; split; [reflexivity | discriminate]].
    destruct (bool_decide (status t = IN_PROGRESS)) eqn:Hg; simpl; [|left; split; [reflexivity | discriminate]].
    left. split; [reflexivity | eauto].
  - unfold complete_task, get_task.
    destruct (tasks db !! k) as [t|] eqn:Ht; [|left; split; [reflexivity | discriminate]].
    destruct (bool_decide (status t = IN_PROGRESS)) eqn:Hg; simpl; [|left; split; [reflexivity | discriminate]].
    right. exists t. eexists. rewrite Hg. split; [reflexivity|].
    split; [reflexivity|]. split; [reflexivity|].
    rewrite free_agent_tasks. reflexivity.
  - unfold fail_task, get_task.
    destruct (tasks db !! k) as [t|] eqn:Ht; [|left; split; [reflexivity | discriminate]].
    right. exists t.
    destruct (retry && (default 0 (retry_count (metadata_ t)) <? max_retries self))
      eqn:Hg; eexists; (split; [reflexivity|]);
      (split; [reflexivity|]); (split; [reflexivity|]); simpl;
      rewrite ?free_agent_tasks; reflexivity.
  - unfold cancel_task, get_task.
    destruct (tasks db !! k) as [t|] eqn:Ht; [|left; split; [reflexivity | discriminate]].
    destruct (bool_decide (status t = PENDING) || bool_decide (status t = QUEUED))
      eqn:Hg; simpl; [|left; split; [reflexivity | discriminate]].
    right. exists t. eexists. rewrite Hg. split; [reflexivity|].
    split; [reflexivity|]. split; [reflexivity|].
    rewrite free_agent_tasks. reflexivity.
  - left. split; [apply add_dependency_tasks | eauto].
Qed.

(** X1. Completing twice: whatever the first call did, a second
    [complete_task] on the same task returns [False] and changes
    nothing. *)
Theorem complete_task_twice (db : Store) (id : UUID) (r r' : string)
    (now now' : datetime) :
  complete_task (complete_task db id r now).2 id r' now'
  = (false, (complete_task db id r now).2).
Proof.
  destruct (complete_task db id r now) as [b db1] eqn:H1. simpl.
  unfold complete_task, get_task in H1.
  destruct (tasks db !! id) as [t|] eqn:Ht.
  - destruct (bool_decide (status t = IN_PROGRESS)) eqn:Hg; simpl in H1;
      injection H1 as <- <-; unfold complete_task, get_task.
    + simpl. rewrite free_agent_tasks. simpl. rewrite lookup_insert_eq. reflexivity.
    + rewrite Ht, Hg. reflexivity.
  - injection H1 as <- <-. unfold complete_task, get_task. rewrite Ht. reflexivity.
Qed.

(** X2. A call touches no task but its subject, and it neither creates nor
    deletes a task. *)
Theorem call_frame (self : TaskScheduler.t) (db : Store) (c : Call)
    (now : datetime) (k : UUID) :
  (k ≠ subject c -> tasks (call self db c now).2 !! k = tasks db !! k)
  /\ (is_Some (tasks (call self db c now).2 !! k) <-> is_Some (tasks db !! k)).
Proof.
  destruct (call_tasks self db c now) as [[-> _] | (t & t' & Ht & _ & _ & ->)].
  - split; [reflexivity | tauto].
  - split.
    + intros Hne. apply lookup_insert_ne. congruence.
    + destruct (decide (subject c = k)) as [<- | Hne].
      * rewrite lookup_insert_eq, Ht. split; eauto.
      * rewrite lookup_insert_ne by exact Hne. tauto.
Qed.

Lemma call_frame_witness :
  tasks (call scheduler two_tasks (CancelTask 1%N) 100).2 !! 2%N
  = tasks two_tasks !! 2%N.
Proof.
  apply (proj1 (call_frame scheduler two_tasks (CancelTask 1%N) 100 2%N)).
  discriminate.
Defined.

(** X3. The status of a task changes only along the life cycle: assign
    takes pending or queued to queued, start takes queued to in progress,
    complete takes in progress to completed, cancel takes pending or queued
    to cancelled, and [fail_task] takes any status to retrying or failed
    (to failed only, when called without retry). *)
Theorem call_lifecycle (self : TaskScheduler.t) (db : Store) (c : Call)
    (now : datetime) (k : UUID) (t t' : Task) :
  tasks db !! k = Some t ->
  tasks (call self db c now).2 !! k = Some t' ->
  status t' = status t
  \/ (k = subject c /\ lifecycle c (status t) (status t') = true).
Proof.
  intros Hk Hk'.
  destruct (call_tasks self db c now) as [[Heq _] | (t0 & t1 & Ht & Heff & _ & Heq)];
    rewrite Heq in Hk'.
  - left. congruence.
  - destruct (decide (subject c = k)) as [<- | Hne].
    2:{ rewrite lookup_insert_ne in Hk' by exact Hne. left. congruence. }
    rewrite lookup_insert_eq in Hk'. injection Hk' as <-.
    assert (t0 = t) by congruence. subst t0.
    destruct c as [? a|?|? frac message|? result|? error retry|?|? d];
      simpl in Heff.
    + destruct (status t) eqn:Hs; simpl in Heff; try discriminate;
        injection Heff as <-; right; split; reflexivity.
    + destruct (status t) eqn:Hs; simpl in Heff; try discriminate;
        injection Heff as <-; right; split; reflexivity.
    + discriminate.
    + destruct (status t) eqn:Hs; simpl in Heff; try discriminate;
        injection Heff as <-; right; split; reflexivity.
    + destruct retry; simpl in Heff.
      * destruct (_ <? _); injection Heff as <-; right; split; try reflexivity;
          simpl; destruct (status t); reflexivity.
      * injection Heff as <-. right. split; [reflexivity|].
        simpl. destruct (status t); reflexivity.
    + destruct (status t) eqn:Hs; simpl in Heff; try discriminate;
        injection Heff as <-; right; split; reflexivity.
    + discriminate.
Qed.

Lemma call_lifecycle_witness :
  status (set_task_started_at 100
            (set_task_status IN_PROGRESS (task_in QUEUED (Some 7%N))))
  = status (task_in QUEUED (Some 7%N))
  \/ (1%N = subject (StartTask 1%N)
      /\ lifecycle (StartTask 1%N) (status (task_in QUEUED (Some 7%N)))
           (status (set_task_started_at 100
                      (set_task_status IN_PROGRESS (task_in QUEUED (Some 7%N)))))
         = true).
Proof.
  apply (call_lifecycle scheduler (one_task QUEUED AgentStatus.BUSY)
           (StartTask 1%N) 100 1%N); reflexivity.
Defined.

End SchedulerCalls.


(** ** Scheduler calls: retry bound, time stamps, events, queue size *)

Section SchedulerInvariants.
Import TaskScheduler TaskStatus SchedulerLoop Fixtures.

Lemma call_retries_bounded (self : TaskScheduler.t) (db : Store) (c : Call)
    (now : datetime) :
  retries_bounded self db -> retries_bounded self (call self db c now).2.
Proof.
  intros Hb k t' Hk.
  destruct (call_tasks self db c now) as [[Heq _] | (t & t1 & Ht & Heff & _ & Heq)];
    rewrite Heq in Hk; [eauto|].
  destruct (decide (subject c = k)) as [<- | Hne].
  2:{ rewrite lookup_insert_ne in Hk by exact Hne. eauto. }
  rewrite lookup_insert_eq in Hk. injection Hk as <-.
  specialize (Hb _ _ Ht).
  destruct c as [? a|?|? frac message|? result|? error retry|?|? d]; simpl in Heff.
  - destruct (_ || _); [|discriminate]. injection Heff as <-. exact Hb.
  - destruct (bool_decide _); [|discriminate]. injection Heff as <-. exact Hb.
  - discriminate.
  - destruct (bool_decide _); [|discriminate]. injection Heff as <-. exact Hb.
  - destruct (retry && _) eqn:Hg; injection Heff as <-; exact Hb.
  - destruct (_ || _); [|discriminate]. injection Heff as <-. exact Hb.
  - discriminate.
Qed.

(** X4. Retry bound. If no task has more than [max_retries] retries, no
    sequence of scheduler calls brings a task above the bound. *)
Theorem run_retries_bounded (self : TaskScheduler.t) (db : Store)
    (calls : list (Call * datetime)) :
  retries_bounded self db -> retries_bounded self (run self db calls).
Proof.
  revert db. induction calls as [|[c now] calls IH]; intros db Hb; simpl.
  - exact Hb.
  - apply IH, call_retries_bounded, Hb.
Qed.

Lemma one_task_lookup (ts : TaskStatus.t) (s : AgentStatus.t) (k : UUID) (t : Task) :
  tasks (one_task ts s) !! k = Some t -> k = 1%N /\ t = task_in ts (Some 7%N).
Proof. simpl. intros H. apply lookup_singleton_Some in H as [<- <-]. auto. Qed.

Lemma one_task_retries_bounded (ts : TaskStatus.t) (s : AgentStatus.t) :
  retries_bounded scheduler (one_task ts s).
Proof. intros k t H. apply one_task_lookup in H as [_ ->]. simpl. lia. Qed.

Lemma run_retries_bounded_witness :
  retries_bounded scheduler
    (run scheduler (one_task IN_PROGRESS AgentStatus.BUSY)
         [(FailTask 1%N "e1" true, 1); (FailTask 1%N "e2" true, 2);
          (FailTask 1%N "e3" true, 3); (FailTask 1%N "e4" true, 4);
          (FailTask 1%N "e5" true, 5)]).
Proof.
  apply (run_retries_bounded scheduler (one_task IN_PROGRESS AgentStatus.BUSY)).
  apply one_task_retries_bounded.
Defined.

Lemma stamps_ok_later (now now' : datetime) (t : Task) :
  now ≤ now' -> stamps_ok now t -> stamps_ok now' t.
Proof.
  intros Hle (Hc & Hs & Hsc). split; [|split].
  - intros c Hcc. destruct (Hc c Hcc) as (? & ? & ? & ?). repeat split; auto. lia.
  - intros s Hss. specialize (Hs s Hss). lia.
  - exact Hsc.
Qed.

Lemma task_effect_stamps (self : TaskScheduler.t) (now : datetime) (c : Call)
    (t t' : Task) :
  stamps_ok now t -> task_effect self now c t = Some t' -> stamps_ok now t'.
Proof.
  intros (Hc & Hs & Hsc) Heff.
  assert (Hnone : status t = PENDING \/ status t = QUEUED \/ status t = IN_PROGRESS ->
                  completed_at t = None).
  { intros Hst. destruct (completed_at t) as [c0|] eqn:Hcc; [|reflexivity].
    destruct (Hc c0 eq_refl) as (_ & ? & ? & ?). intuition congruence. }
  destruct c as [? a|?|? frac message|? result|? error retry|?|? d]; simpl in Heff.
  - destruct (status t) eqn:Hst; simpl in Heff; try discriminate;
      injection Heff as <-; (split; [|split]); simpl; auto;
      intros c0 Hc0; rewrite Hnone in Hc0 by auto; discriminate.
  - destruct (status t) eqn:Hst; simpl in Heff; try discriminate.
    injection Heff as <-. split; [|split]; simpl.
    + intros c0 Hc0. rewrite Hnone in Hc0 by auto. discriminate.
    + intros s [= <-]. lia.
    + intros s c0 _ Hc0. rewrite Hnone in Hc0 by auto. discriminate.
  - discriminate.
  - destruct (status t) eqn:Hst; simpl in Heff; try discriminate.
    injection Heff as <-. split; [|split]; simpl; auto.
    + intros c0 [= <-]. repeat split; [lia|discriminate..].
    + intros s c0 Hss [= <-]. apply Hs. exact Hss.
  - destruct (retry && _); injection Heff as <-; (split; [|split]); simpl; auto.
    + intros c0 Hc0. destruct (Hc c0 Hc0) as (? & _).
      repeat split; [assumption|discriminate..].
    + intros c0 [= <-]. repeat split; [lia|discriminate..].
    + intros s c0 Hss [= <-]. apply Hs. exact Hss.
  - destruct (status t) eqn:Hst; simpl in Heff; try discriminate;
      injection Heff as <-; (split; [|split]); simpl; auto.
    + intros c0 [= <-]. repeat split; [lia|discriminate..].
    + intros s c0 Hss [= <-]. apply Hs. exact Hss.
    + intros c0 [= <-]. repeat split; [lia|discriminate..].
    + intros s c0 Hss [= <-]. apply Hs. exact Hss.
  - discriminate.
Qed.

Lemma call_stamps (self : TaskScheduler.t) (db : Store) (c : Call)
    (now now' : datetime) :
  now ≤ now' ->
  (forall k t, tasks db !! k = Some t -> stamps_ok now t) ->
  forall k t, tasks (call self db c now').2 !! k = Some t -> stamps_ok now' t.
Proof.
  intros Hle Hall k t' Hk.
  destruct (call_tasks self db c now') as [[Heq _] | (t & t1 & Ht & Heff & _ & Heq)];
    rewrite Heq in Hk.
  - eapply stamps_ok_later; eauto.
  - destruct (decide (subject c = k)) as [<- | Hne].
    + rewrite lookup_insert_eq in Hk. injection Hk as <-.
      eapply task_effect_stamps; [|exact Heff].
      eapply stamps_ok_later; eauto.
    + rewrite lookup_insert_ne in Hk by exact Hne.
      eapply stamps_ok_later; eauto.
Qed.

Lemma run_stamps (self : TaskScheduler.t) (calls : list (Call * datetime)) :
  forall (db : Store) (now : datetime),
    (forall k t, tasks db !! k = Some t -> stamps_ok now t) ->
    clock_ok now calls ->
    exists now', forall k t, tasks (run self db calls) !! k = Some t -> stamps_ok now' t.
Proof.
  induction calls as [|[c t0] calls IH]; intros db now Hall Hclock; simpl.
  - exists now. exact Hall.
  - destruct Hclock as [Hle Hclock].
    apply (IH _ t0); [|exact Hclock].
    apply (call_stamps self db c now t0 Hle Hall).
Qed.

(** X5. Time stamps. When the clock never goes back, a task that starts
    without time stamps in the future, with its start not after its
    completion and with no completion time while it is pending, queued or
    in progress, has [started_at <= completed_at] after any sequence of
    scheduler calls. *)
Theorem run_started_before_completed (self : TaskScheduler.t) (db : Store)
    (now : datetime) (calls : list (Call * datetime)) :
  (forall k t, tasks db !! k = Some t -> stamps_ok now t) ->
  clock_ok now calls ->
  forall k t s c,
    tasks (run self db calls) !! k = Some t ->
    started_at t = Some s -> completed_at t = Some c -> s ≤ c.
Proof.
  intros Hall Hclock k t s c Hk Hs Hc.
  destruct (run_stamps self calls db now Hall Hclock) as [now' Hfin].
  destruct (Hfin k t Hk) as (_ & _ & Hsc). eauto.
Qed.

Lemma one_task_stamps (ts : TaskStatus.t) (s : AgentStatus.t) (k : UUID) (t : Task) :
  tasks (one_task ts s) !! k = Some t -> stamps_ok 0 t.
Proof.
  intros H. apply one_task_lookup in H as [_ ->].
  split; [|split]; simpl; intros; discriminate.
Qed.

Lemma run_started_before_completed_witness :
  exists t,
    tasks (run scheduler (one_task QUEUED AgentStatus.BUSY)
               [(StartTask 1%N, 5); (CompleteTask 1%N "done", 9)]) !! 1%N = Some t
    /\ started_at t = Some 5 /\ completed_at t = Some 9 /\ 5 ≤ 9.
Proof.
  eexists. split; [reflexivity|]. split; [reflexivity|]. split; [reflexivity|].
  eapply (run_started_before_completed scheduler (one_task QUEUED AgentStatus.BUSY) 0
            [(StartTask 1%N, 5); (CompleteTask 1%N "done", 9)]
            (one_task_stamps QUEUED AgentStatus.BUSY) ltac:(simpl; lia) 1%N);
    reflexivity.
Defined.

Lemma free_agent_published (owner : option UUID) (now : datetime) (db : Store) :
  published (free_agent owner now db) = published db.
Proof.
  unfold free_agent. destruct owner as [a|]; [|reflexivity].
  destruct (agents db !! a); reflexivity.
Qed.

(** X6. A call that returns [False] leaves the store and the event log
    exactly as they were; a call that returns [True] appends exactly one
    event to the log, except [cancel_task] and [add_dependency], which
    publish nothing. *)
Theorem call_result_and_events (self : TaskScheduler.t) (db : Store) (c : Call)
    (now : datetime) :
  ((call self db c now).1 = false -> (call self db c now).2 = db)
  /\ ((call self db c now).1 = true ->
      exists es,
        published (call self db c now).2 = published db ++ es
        /\ length es = match c with
                       | CancelTask _ | AddDependency _ _ => 0%nat
                       | _ => 1%nat
                       end).
Proof.
  destruct c as [k a|k|k frac message|k result|k error retry|k|k d]; simpl.
  - unfold assign_task. destruct (get_task db k) as [t|].
    2:{ split; [reflexivity|discriminate]. }
    destruct (negb _). { split; [reflexivity|discriminate]. }
    destruct (agents db !! a) as [ag|].
    2:{ split; [reflexivity|discriminate]. }
    destruct (negb _). { split; [reflexivity|discriminate]. }
    split; [discriminate|]. intros _. eexists. split; reflexivity.
  - unfold start_task. destruct (get_task db k) as [t|].
    2:{ split; [reflexivity|discriminate]. }
    destruct (negb _). { split; [reflexivity|discriminate]. }
    split; [discriminate|]. intros _. eexists. split; reflexivity.
  - unfold update_task_progress. destruct (get_task db k) as [t|].
    2:{ split; [reflexivity|discriminate]. }
    destruct (negb _). { split; [reflexivity|discriminate]. }
    split; [discriminate|]. intros _. eexists. split; reflexivity.
  - unfold complete_task. destruct (get_task db k) as [t|].
    2:{ split; [reflexivity|discriminate]. }
    destruct (negb _). { split; [reflexivity|discriminate]. }
    split; [discriminate|]. intros _. eexists. simpl.
    rewrite free_agent_published. split; reflexivity.
  - unfold fail_task. destruct (get_task db k) as [t|].
    2:{ split; [reflexivity|discriminate]. }
    split; [discriminate|]. intros _. eexists. simpl.
    rewrite free_agent_published. split; reflexivity.
  - unfold cancel_task. destruct (get_task db k) as [t|].
    2:{ split; [reflexivity|discriminate]. }
    destruct (negb _). { split; [reflexivity|discriminate]. }
    split; [discriminate|]. intros _. exists []. simpl.
    rewrite free_agent_published, app_nil_r. split; reflexivity.
  - unfold add_dependency. destruct (bool_decide (k = d)).
    { split; [reflexivity|discriminate]. }
    destruct (get_task db k). 2:{ split; [reflexivity|discriminate]. }
    destruct (get_task db d). 2:{ split; [reflexivity|discriminate]. }
    destruct (bool_decide _). { split; [reflexivity|discriminate]. }
    split; [discriminate|]. intros _. exists []. simpl.
    rewrite app_nil_r. split; reflexivity.
Qed.

End SchedulerInvariants.


(** ** Queue size *)

Section QueueSize.
Import TaskScheduler TaskStatus SchedulerLoop Fixtures.

Lemma call_result_and_events_witness :
  (call scheduler (one_task COMPLETED AgentStatus.IDLE) (CancelTask 1%N) 100).2
  = one_task COMPLETED AgentStatus.IDLE.
Proof.
  apply (proj1 (call_result_and_events scheduler (one_task COMPLETED AgentStatus.IDLE)
                  (CancelTask 1%N) 100)).
  reflexivity.
Defined.

Lemma counts_status (t : Task) :
  counts t = match status t with
             | PENDING | QUEUED | IN_PROGRESS | RETRYING => 1%nat
             | _ => 0%nat
             end.
Proof.
  unfold counts.
  destruct (decide (active (0%N, t))) as [H|H]; unfold active in H; simpl in H;
    destruct (status t); try reflexivity; exfalso;
    solve [intuition discriminate | apply H; auto].
Qed.

Lemma filter_active_cons (k : UUID) (t : Task) (l : list (UUID * Task)) :
  length (filter active ((k, t) :: l)) = (counts t + length (filter active l))%nat.
Proof.
  unfold counts. rewrite filter_cons.
  destruct (decide (active (k, t))) as [H|H], (decide (active (0%N, t))) as [H'|H'];
    try reflexivity; exfalso; unfold active in *; simpl in *; tauto.
Qed.

Lemma queue_size_fresh (m : gmap N Task) (k : UUID) (t : Task) :
  m !! k = None ->
  length (filter active (map_to_list (<[k := t]> m)))
  = (counts t + length (filter active (map_to_list m)))%nat.
Proof.
  intros Hk. rewrite <- (filter_active_cons k).
  apply Permutation_length. apply filter_Permutation.
  apply map_to_list_insert. exact Hk.
Qed.

(** Rewriting a stored row changes the queue size by the difference of
    what the old and the new row count for. *)
Lemma queue_size_rewrite (db : Store) (k : UUID) (t t' : Task) :
  tasks db !! k = Some t ->
  (length (filter active (map_to_list (<[k := t']> (tasks db)))) + counts t
   = _get_queue_size db + counts t')%nat.
Proof.
  intros Hk. unfold _get_queue_size.
  rewrite <- (insert_delete_eq (tasks db) k t').
  rewrite <- (insert_delete_id (tasks db) k t Hk) at 2.
  rewrite !queue_size_fresh by apply lookup_delete_eq. lia.
Qed.

(** X7. Queue size. A successful [complete_task] or [cancel_task] lowers
    the number of active tasks by exactly one; a successful [assign_task],
    [start_task], [update_task_progress] or [add_dependency] keeps it; and
    [fail_task] changes it by at most one. A call that returns [False]
    keeps it. *)
Theorem call_queue_size (self : TaskScheduler.t) (db : Store) (c : Call)
    (now : datetime) :
  ((call self db c now).1 = false ->
   _get_queue_size (call self db c now).2 = _get_queue_size db)
  /\ ((call self db c now).1 = true ->
      match c with
      | CompleteTask _ _ | CancelTask _ =>
          (_get_queue_size (call self db c now).2 + 1 = _get_queue_size db)%nat
      | FailTask _ _ _ =>
          (_get_queue_size (call self db c now).2 <= _get_queue_size db + 1
           /\ _get_queue_size db <= _get_queue_size (call self db c now).2 + 1)%nat
      | _ => _get_queue_size (call self db c now).2 = _get_queue_size db
      end).
Proof.
  split.
  - intros Hrej.
    destruct (call_tasks self db c now) as [[Heq _] | (t & t' & _ & _ & Hacc & _)].
    + unfold _get_queue_size. rewrite Heq. reflexivity.
    + congruence.
  - intros Hacc.
    destruct (call_tasks self db c now) as [[Heq Hadd] | (t & t' & Ht & Heff & _ & Heq)].
    + destruct (Hadd Hacc) as [(k & d & ->) | (k & frac & message & ->)];
        unfold _get_queue_size; rewrite Heq; reflexivity.
    + pose proof (queue_size_rewrite db (subject c) t t' Ht) as Hsize.
      assert (Hgoal : forall n : nat,
                 _get_queue_size (call self db c now).2 = n ->
                 length (filter active (map_to_list (<[subject c := t']> (tasks db)))) = n).
      { intros n <-. unfold _get_queue_size. rewrite Heq. reflexivity. }
      specialize (Hgoal _ eq_refl). rewrite Hgoal in Hsize. clear Hgoal Heq.
      revert Hsize. generalize (_get_queue_size (call self db c now).2).
      intros n Hsize.
      rewrite !counts_status in Hsize.
      destruct c as [? a|?|? frac message|? result|? error retry|?|? d];
        simpl in Heff.
      * destruct (status t) eqn:Hst; simpl in Heff; try discriminate;
          injection Heff as <-; simpl in Hsize; lia.
      * destruct (status t) eqn:Hst; simpl in Heff; try discriminate;
          injection Heff as <-; simpl in Hsize; lia.
      * discriminate.
      * destruct (status t) eqn:Hst; simpl in Heff; try discriminate;
          injection Heff as <-; simpl in Hsize; lia.
      * destruct (retry && _); injection Heff as <-; simpl in Hsize;
          destruct (status t); lia.
      * destruct (status t) eqn:Hst; simpl in Heff; try discriminate;
          injection Heff as <-; simpl in Hsize; lia.
      * discriminate.
Qed.

Lemma call_queue_size_witness :
  (_get_queue_size
     (call scheduler (one_task IN_PROGRESS AgentStatus.BUSY)
           (CompleteTask 1%N "done") 100).2 + 1
   = _get_queue_size (one_task IN_PROGRESS AgentStatus.BUSY))%nat.
Proof.
  apply (proj2 (call_queue_size scheduler (one_task IN_PROGRESS AgentStatus.BUSY)
                  (CompleteTask 1%N "done") 100)).
  reflexivity.
Defined.

End QueueSize.


(** ** The scheduler loop *)

Section SchedulerTick.
Import TaskScheduler TaskStatus SchedulerLoop Fixtures.

(** Without required skills [get_available_agent] returns a stored idle
    agent of the requested type. *)
Lemma get_available_agent_idle (db : Store) (ty : option AgentType.t)
    (r : UUID * Agent) :
  AgentManager.get_available_agent db ty None = Some r ->
  agents db !! r.1 = Some r.2 /\ AgentManager.matches ty r.
Proof.
  unfold AgentManager.get_available_agent. rewrite head_take_1.
  destruct (head (AgentManager.idle_rows db ty)) as [r0|] eqn:Hhd; [|discriminate].
  intros [= <-]. apply idle_rows_head in Hhd as [Hin _].
  apply idle_rows_elem in Hin. exact Hin.
Qed.

Lemma assignments_start (db : Store) (now : datetime) : assignments db db now [].
Proof.
  repeat split; try apply NoDup_nil_2; try reflexivity.
  intros k a H. apply elem_of_nil in H. contradiction.
Qed.

Lemma schedule_task_assignments (db0 db : Store) (now : datetime)
    (pairs : list (UUID * UUID)) (k : UUID) (t : Task) :
  assignments db0 db now pairs ->
  tasks db0 !! k = Some t -> k ∉ pairs.*1 ->
  status t = PENDING \/ status t = RETRYING ->
  exists pairs',
    assignments db0 (schedule_task now db (k, t)) now pairs'
    /\ (pairs' = pairs \/ exists a, pairs' = pairs ++ [(k, a)]).
Proof.
  intros Has Hk Hfresh Hready.
  pose proof Has as (Hnd1 & Hnd2 & Hpairs & Htasks & Hagents & Hdeps).
  unfold schedule_task. simpl.
  destruct (AgentManager.get_available_agent db (agent_type (metadata_ t)) None)
    as [[a ag]|] eqn:Hget; [|exists pairs; auto].
  apply get_available_agent_idle in Hget as [Hag [Hidle Hty]]. simpl in *.
  assert (Ha : a ∉ pairs.*2).
  { intros Hin. apply list_elem_of_fmap in Hin as ([k' a'] & -> & Hin).
    destruct (Hpairs k' a' Hin) as (t' & ag' & _ & _ & _ & _ & _ & _ & Hbusy).
    simpl in Hag. rewrite Hbusy in Hag. injection Hag as <-. discriminate. }
  assert (Hk' : tasks db !! k = Some t) by (rewrite Htasks; assumption).
  assert (Hag0 : agents db0 !! a = Some ag) by (rewrite <- Hagents; assumption).
  destruct (assign_task db k a now) as [b db1] eqn:Hassign. simpl.
  unfold assign_task, get_task in Hassign. rewrite Hk', Hag, Hidle in Hassign.
  destruct Hready as [Hst | Hst]; rewrite Hst in Hassign; simpl in Hassign;
    injection Hassign as <- <-; [|exists pairs; auto].
  exists (pairs ++ [(k, a)]). split; [|right; eauto].
  split; [|split; [|split; [|split; [|split]]]].
  - rewrite fmap_app. apply NoDup_app. repeat split; auto.
    + intros x Hx Hx'. apply list_elem_of_singleton in Hx'. subst x. contradiction.
    + apply NoDup_singleton.
  - rewrite fmap_app. apply NoDup_app. repeat split; auto.
    + intros x Hx Hx'. apply list_elem_of_singleton in Hx'. subst x. contradiction.
    + apply NoDup_singleton.
  - intros k' a' Hin. apply elem_of_app in Hin as [Hin | Hin].
    + destruct (Hpairs k' a' Hin) as (t' & ag' & H1 & H2 & H3 & H4 & H5 & H6 & H7).
      exists t', ag'. repeat split; auto; simpl.
      * rewrite lookup_insert_ne; [exact H6|].
        intros <-. apply Hfresh. apply (list_elem_of_fmap_2 fst) in Hin. exact Hin.
      * rewrite lookup_insert_ne; [exact H7|].
        intros <-. apply Ha. apply (list_elem_of_fmap_2 snd) in Hin. exact Hin.
    + apply list_elem_of_singleton in Hin. injection Hin as -> ->.
      exists t, ag. repeat split; auto; simpl.
      * destruct (agent_type (metadata_ t)) as [ty0|]; [|discriminate].
        intros ty [= <-]. exact Hty.
      * apply lookup_insert_eq.
      * apply lookup_insert_eq.
  - intros k' Hk0. rewrite fmap_app in Hk0. apply not_elem_of_app in Hk0 as [Hk0 Hne].
    simpl. rewrite lookup_insert_ne; [auto|].
    intros <-. apply Hne. apply list_elem_of_here.
  - intros a' Ha0. rewrite fmap_app in Ha0. apply not_elem_of_app in Ha0 as [Ha0 Hne].
    simpl. rewrite lookup_insert_ne; [auto|].
    intros <-. apply Hne. apply list_elem_of_here.
  - exact Hdeps.
Qed.

Lemma fold_schedule_assignments (db0 : Store) (now : datetime)
    (rows : list (UUID * Task)) :
  forall (db : Store) (pairs : list (UUID * UUID)),
    NoDup rows.*1 ->
    (forall r, r ∈ rows ->
               tasks db0 !! r.1 = Some r.2
               /\ (status r.2 = PENDING \/ status r.2 = RETRYING)
               /\ r.1 ∉ pairs.*1) ->
    assignments db0 db now pairs ->
    exists pairs',
      assignments db0 (fold_left (schedule_task now) rows db) now pairs'
      /\ forall p, p ∈ pairs' -> p ∈ pairs \/ p.1 ∈ rows.*1.
Proof.
  induction rows as [|[k t] rows IH]; intros db pairs Hnd Hrows Has.
  - exists pairs. auto.
  - rewrite fmap_cons in Hnd. apply NoDup_cons in Hnd as [Hk Hnd].
    cbn [fold_left fst] in *.
    destruct (Hrows (k, t) (list_elem_of_here _ _)) as (Hlook & Hst & Hfresh).
    destruct (schedule_task_assignments db0 db now pairs k t Has Hlook Hfresh Hst)
      as (pairs1 & Has1 & Hpairs1).
    destruct (IH (schedule_task now db (k, t)) pairs1 Hnd) as (pairs' & Hfin & Hsrc);
      [|exact Has1|].
    + intros r Hr. destruct (Hrows r (list_elem_of_further _ _ _ Hr)) as (H1 & H2 & H3).
      split; [exact H1|]. split; [exact H2|].
      destruct Hpairs1 as [-> | [a ->]]; [exact H3|].
      rewrite fmap_app. apply not_elem_of_app. split; [exact H3|].
      simpl. intros Hin. apply list_elem_of_singleton in Hin.
      apply Hk. rewrite <- Hin. apply (list_elem_of_fmap_2 fst). exact Hr.
    + exists pairs'. split; [exact Hfin|].
      intros p Hp. destruct (Hsrc p Hp) as [Hin | Hin].
      * destruct Hpairs1 as [-> | [a ->]]; [auto|].
        apply elem_of_app in Hin as [Hin | Hin]; [auto|].
        apply list_elem_of_singleton in Hin. subst p. right.
        rewrite fmap_cons. apply list_elem_of_here.
      * right. rewrite fmap_cons. apply list_elem_of_further. exact Hin.
Qed.

Lemma get_ready_tasks_keys (db : Store) (limit : nat) :
  NoDup (get_ready_tasks db limit).*1.
Proof.
  unfold get_ready_tasks, candidates.
  eapply sublist_NoDup.
  2:{ apply fmap_sublist. etransitivity; [apply sublist_filter|apply sublist_take]. }
  rewrite merge_sort_Permutation.
  eapply sublist_NoDup; [|apply fmap_sublist, sublist_filter].
  apply NoDup_fst_map_to_list.
Qed.

(** X8. One iteration of the scheduler loop makes a set of assignments in
    which no task and no agent occurs twice: each assigned task was a
    pending ready task, each agent was idle and of the type the task asks
    for; afterwards the task is queued and owned by that agent and the
    agent is busy. Every other task (every retrying task among them),
    every other agent and the dependency table are unchanged. *)
Theorem scheduler_tick_assignments (db : Store) (now : datetime) :
  exists pairs,
    assignments db (scheduler_tick db now) now pairs
    /\ forall k a, (k, a) ∈ pairs ->
                   exists t, (k, t) ∈ get_ready_tasks db 10
                             /\ Spec.deps_completed db k.
Proof.
  unfold scheduler_tick.
  destruct (fold_schedule_assignments db now (get_ready_tasks db 10) db [])
    as (pairs & Has & Hsrc).
  - apply get_ready_tasks_keys.
  - intros r Hr. unfold get_ready_tasks in Hr.
    apply list_elem_of_filter in Hr as [_ Hr].
    apply candidates_rows in Hr as [H1 H2].
    split; [exact H1|]. split; [exact H2|]. apply not_elem_of_nil.
  - apply assignments_start.
  - exists pairs. split; [exact Has|].
    intros k a Hin. destruct (Hsrc (k, a) Hin) as [Hnil | Hrow].
    + apply elem_of_nil in Hnil. contradiction.
    + apply list_elem_of_fmap in Hrow as ([k' t] & Heq & Hrow). simpl in Heq. subst k'.
      exists t. split; [exact Hrow|].
      unfold get_ready_tasks in Hrow.
      apply list_elem_of_filter in Hrow as [Hdeps _].
      apply all_deps_completed_spec. exact Hdeps.
Qed.

End SchedulerTick.


(** ** Heartbeats and the health monitor *)

Section Health.
Import AgentStatus AgentLifecycle Fixtures.

Lemma fold_mark_offline (now : datetime) (l : list (UUID * Agent)) :
  forall (acc : Store * list AgentEvent),
    NoDup l.*1 ->
    let out := fold_left (mark_offline now) l acc in
    (forall k ag, (k, ag) ∈ l ->
                  agents out.1 !! k
                  = Some (set_agent_updated_at now (set_agent_status OFFLINE ag)))
    /\ (forall k, k ∉ l.*1 -> agents out.1 !! k = agents acc.1 !! k)
    /\ tasks out.1 = tasks acc.1
    /\ task_dependencies out.1 = task_dependencies acc.1
    /\ published out.1 = published acc.1
    /\ out.2 = acc.2 ++ map (fun r => AgentStopped r.1 "heartbeat_timeout") l.
Proof.
  induction l as [|[k0 ag0] l IH]; intros acc Hnd.
  - simpl. repeat split; auto.
    + intros k ag H. apply elem_of_nil in H. contradiction.
    + rewrite app_nil_r. reflexivity.
  - rewrite fmap_cons in Hnd. apply NoDup_cons in Hnd as [Hk0 Hnd].
    cbn [fold_left]. cbn zeta.
    destruct (IH (mark_offline now acc (k0, ag0)) Hnd)
      as (Hin & Hout & Ht & Hd & Hp & Hev).
    cbn zeta in *. simpl in Hk0.
    split; [|split; [|split; [|split; [|split]]]].
    + intros k ag Hmem. apply elem_of_cons in Hmem as [[= -> ->] | Hmem].
      * rewrite Hout by exact Hk0. simpl. apply lookup_insert_eq.
      * apply Hin. exact Hmem.
    + intros k Hk. rewrite fmap_cons in Hk. apply not_elem_of_cons in Hk as [Hne Hk].
      rewrite Hout by exact Hk. simpl. apply lookup_insert_ne. auto.
    + rewrite Ht. reflexivity.
    + rewrite Hd. reflexivity.
    + rewrite Hp. reflexivity.
    + rewrite Hev. simpl. rewrite <- app_assoc. reflexivity.
Qed.

Lemma stale_rows_keys (threshold : datetime) (db : Store) :
  NoDup (filter (stale threshold) (map_to_list (agents db))).*1.
Proof.
  eapply sublist_NoDup; [|apply fmap_sublist, sublist_filter].
  apply NoDup_fst_map_to_list.
Qed.

Lemma stale_rows_elem (threshold : datetime) (db : Store) (k : UUID) (ag : Agent) :
  (k, ag) ∈ filter (stale threshold) (map_to_list (agents db))
  <-> agents db !! k = Some ag /\ stale threshold (k, ag).
Proof. rewrite list_elem_of_filter, elem_of_map_to_list. tauto. Qed.

Lemma stale_rows_key (threshold : datetime) (db : Store) (k : UUID) :
  k ∈ (filter (stale threshold) (map_to_list (agents db))).*1
  <-> exists ag, agents db !! k = Some ag /\ stale threshold (k, ag).
Proof.
  rewrite list_elem_of_fmap. split.
  - intros ([k' ag] & -> & Hmem). exists ag. apply stale_rows_elem. exact Hmem.
  - intros (ag & Hmem). exists (k, ag). split; [reflexivity|].
    apply stale_rows_elem. exact Hmem.
Qed.

(** The agent table after the check, row by row. *)
Lemma check_agent_health_lookup (self : AgentLifecycle.t) (db : Store)
    (now : datetime) (k : UUID) :
  agents (_check_agent_health self db now).1 !! k
  = (fun ag => if decide (stale (now - heartbeat_timeout self) (k, ag))
               then set_agent_updated_at now (set_agent_status OFFLINE ag)
               else ag) <$> agents db !! k.
Proof.
  unfold _check_agent_health. cbn zeta.
  set (threshold := now - heartbeat_timeout self).
  destruct (fold_mark_offline now _ (db, []) (stale_rows_keys threshold db))
    as (Hin & Hout & _).
  cbn zeta in *. simpl in Hout.
  destruct (agents db !! k) as [ag|] eqn:Hk; simpl.
  - destruct (decide (stale threshold (k, ag))) as [Hs|Hs].
    + apply Hin. apply stale_rows_elem. auto.
    + rewrite Hout; [exact Hk|].
      intros Hmem. apply stale_rows_key in Hmem as (ag' & Hk' & Hs').
      rewrite Hk in Hk'. injection Hk' as <-. contradiction.
  - rewrite Hout; [exact Hk|].
    intros Hmem. apply stale_rows_key in Hmem as (ag' & Hk' & _). congruence.
Qed.

(** X9. The health monitor. After [_check_agent_health] at time [now],
    every agent that was idle or busy with a heartbeat older than
    [now - heartbeat_timeout] is offline, every other agent (every agent
    without heartbeat among them) is exactly as before, and no task row is
    touched, also not the tasks the stale agents own. The events published
    are exactly one [agent.stopped] event with reason [heartbeat_timeout]
    for each agent marked offline: the list of events is the list of the
    stale rows, each turned into its event, and no event occurs twice. *)
Theorem check_agent_health_effect (self : AgentLifecycle.t) (db : Store)
    (now : datetime) :
  let out := _check_agent_health self db now in
  (forall k ag,
      agents db !! k = Some ag ->
      agents out.1 !! k
      = Some (if decide (stale (now - heartbeat_timeout self) (k, ag))
              then set_agent_updated_at now (set_agent_status OFFLINE ag)
              else ag))
  /\ (forall k, agents db !! k = None -> agents out.1 !! k = None)
  /\ tasks out.1 = tasks db
  /\ task_dependencies out.1 = task_dependencies db
  /\ (forall k reason,
         AgentStopped k reason ∈ out.2
         <-> reason = "heartbeat_timeout"%string
             /\ exists ag, agents db !! k = Some ag
                           /\ stale (now - heartbeat_timeout self) (k, ag))
  /\ (forall k st metrics, AgentHeartbeat k st metrics ∉ out.2)
  /\ out.2
     = map (fun r : UUID * Agent => AgentStopped r.1 "heartbeat_timeout")
           (filter (stale (now - heartbeat_timeout self)) (map_to_list (agents db)))
  /\ NoDup out.2.
Proof.
  cbn zeta. split; [|split].
  { intros k ag Hk. rewrite check_agent_health_lookup, Hk. reflexivity. }
  { intros k Hk. rewrite check_agent_health_lookup, Hk. reflexivity. }
  unfold _check_agent_health. cbn zeta.
  set (threshold := now - heartbeat_timeout self).
  destruct (fold_mark_offline now _ (db, []) (stale_rows_keys threshold db))
    as (_ & _ & Ht & Hd & _ & Hev).
  cbn zeta in *. simpl in Ht, Hd, Hev.
  split; [exact Ht|]. split; [exact Hd|]. split.
  - intros k reason. rewrite Hev. simpl. rewrite list_elem_of_In, in_map_iff. split.
    + intros ([k' ag] & [= <- <-] & Hmem). split; [reflexivity|].
      exists ag. apply stale_rows_elem. apply list_elem_of_In. exact Hmem.
    + intros (-> & ag & Hmem). exists (k, ag). split; [reflexivity|].
      apply list_elem_of_In. apply stale_rows_elem. exact Hmem.
  - split; [|split; [exact Hev|]].
    + intros k st metrics. rewrite Hev. simpl. rewrite list_elem_of_In, in_map_iff.
      intros (r & Heq & _). discriminate.
    + rewrite Hev. simpl.
      change (map (fun r : UUID * Agent => AgentStopped r.1 "heartbeat_timeout")
                  (filter (stale threshold) (map_to_list (agents db))))
        with ((fun r : UUID * Agent => AgentStopped r.1 "heartbeat_timeout")
                <$> filter (stale threshold) (map_to_list (agents db))).
      apply NoDup_fmap_2_strong; [|eapply NoDup_fmap_1, stale_rows_keys].
      intros [k1 a1] [k2 a2] H1 H2 [= Hk]. simpl in Hk. subst k2. f_equal.
      apply stale_rows_elem in H1 as [H1 _]. apply stale_rows_elem in H2 as [H2 _].
      congruence.
Qed.

Lemma no_stale_after_check (self : AgentLifecycle.t) (db : Store) (now now' : datetime) :
  now' ≤ now ->
  filter (stale (now' - heartbeat_timeout self))
         (map_to_list (agents (_check_agent_health self db now).1)) = [].
Proof.
  intros Hle.
  destruct (filter _ _) as [|[k ag'] l] eqn:Hrows; [reflexivity|]. exfalso.
  assert (Hmem : (k, ag') ∈ filter (stale (now' - heartbeat_timeout self))
                   (map_to_list (agents (_check_agent_health self db now).1))).
  { rewrite Hrows. apply list_elem_of_here. }
  apply stale_rows_elem in Hmem as [Hk Hs].
  rewrite check_agent_health_lookup in Hk.
  destruct (agents db !! k) as [ag|]; [|discriminate]. simpl in Hk.
  destruct (decide (stale (now - heartbeat_timeout self) (k, ag))) as [Hs0|Hs0];
    injection Hk as <-.
  - destruct Hs as [[Hs | Hs] _]; discriminate.
  - apply Hs0. destruct Hs as [Hst Hhb]. split; [exact Hst|]. simpl in *.
    destruct (last_heartbeat ag); [lia | exact Hhb].
Qed.

(** X10. The health monitor is idempotent: a second check at the same
    time changes nothing and publishes nothing. *)
Theorem check_agent_health_twice (self : AgentLifecycle.t) (db : Store)
    (now : datetime) :
  _check_agent_health self (_check_agent_health self db now).1 now
  = ((_check_agent_health self db now).1, []).
Proof.
  unfold _check_agent_health at 1. cbn zeta.
  rewrite (no_stale_after_check self db now now); [reflexivity | lia].
Qed.

(** X11. A recorded heartbeat protects the agent: after a successful
    [record_heartbeat] at time [t], a health check at any time up to
    [t + heartbeat_timeout] leaves that agent as the heartbeat left it. *)
Theorem heartbeat_keeps_agent_alive (self : AgentLifecycle.t) (db : Store)
    (id : UUID) (metrics : option string) (t t' : datetime) :
  (record_heartbeat db id metrics t).1.1 = true ->
  t' ≤ t + heartbeat_timeout self ->
  let db1 := (record_heartbeat db id metrics t).1.2 in
  agents (_check_agent_health self db1 t').1 !! id = agents db1 !! id
  /\ (last_heartbeat <$> agents db1 !! id) = Some (Some t)
  /\ (agent_status <$> agents db1 !! id) = (agent_status <$> agents db !! id).
Proof.
  intros Hok Hle. cbn zeta. rewrite check_agent_health_lookup.
  unfold record_heartbeat in *. unfold AgentManager.get_agent in *.
  destruct (agents db !! id) as [ag|] eqn:Hid; [|discriminate].
  simpl. rewrite lookup_insert_eq. simpl. rewrite lookup_insert_eq. simpl.
  split; [|split; reflexivity].
  destruct (decide _) as [[_ Hs]|_]; [|reflexivity].
  simpl in Hs. lia.
Qed.

Lemma heartbeat_keeps_agent_alive_witness :
  let db1 := (record_heartbeat (one_task TaskStatus.IN_PROGRESS BUSY) 7%N None 500).1.2 in
  agents (_check_agent_health (AgentLifecycle.mk 30 90 100) db1 590).1 !! 7%N
  = agents db1 !! 7%N
  /\ (last_heartbeat <$> agents db1 !! 7%N) = Some (Some 500)
  /\ (agent_status <$> agents db1 !! 7%N)
     = (agent_status <$> agents (one_task TaskStatus.IN_PROGRESS BUSY) !! 7%N).
Proof.
  apply (heartbeat_keeps_agent_alive (AgentLifecycle.mk 30 90 100)
           (one_task TaskStatus.IN_PROGRESS BUSY) 7%N None 500 590);
    [reflexivity | simpl; lia].
Defined.

(** X12. Termination. [terminate_agent] on an existing agent sets it
    offline whatever its status, publishes one [agent.stopped] event with
    the given reason, and touches no task: a task owned by the agent keeps
    its status and its owner. A health check run on the store as
    [terminate_agent] left it, at whatever time, does not report the
    agent. The agent does not stay offline, though: when a task it still
    owns is completed afterwards, [complete_task] sets the agent idle
    again. For an unknown agent [terminate_agent] returns [False] and does
    nothing. *)
Theorem terminate_agent_effect (self : AgentLifecycle.t) (db : Store) (id : UUID)
    (reason : string) (now now' : datetime) :
  (agents db !! id = None -> terminate_agent db id reason now = (false, db, []))
  /\ (forall ag,
        agents db !! id = Some ag ->
        let out := terminate_agent db id reason now in
        out.1.1 = true
        /\ out.2 = [AgentStopped id reason]
        /\ agents out.1.2 !! id
           = Some (set_agent_updated_at now (set_agent_status OFFLINE ag))
        /\ (forall k, k ≠ id -> agents out.1.2 !! k = agents db !! k)
        /\ tasks out.1.2 = tasks db
        /\ (forall r, AgentStopped id r ∉ (_check_agent_health self out.1.2 now').2)
        /\ (forall k task result,
               tasks db !! k = Some task ->
               status task = TaskStatus.IN_PROGRESS ->
               agent_id task = Some id ->
               agents (TaskScheduler.complete_task out.1.2 k result now').2 !! id
               = Some (set_agent_updated_at now'
                         (set_agent_status IDLE
                            (set_agent_updated_at now
                               (set_agent_status OFFLINE ag)))))).
Proof.
  unfold terminate_agent, AgentManager.get_agent. split.
  - intros ->. reflexivity.
  - intros ag ->. cbn zeta. simpl.
    split; [reflexivity|]. split; [reflexivity|].
    split; [apply lookup_insert_eq|].
    split; [intros k Hk; apply lookup_insert_ne; auto|].
    split; [reflexivity|].
    split.
    2:{ intros k task result Hk Hst Hown.
        unfold TaskScheduler.complete_task, TaskScheduler.get_task. simpl.
        rewrite Hk, Hst. simpl. rewrite Hown.
        apply free_agent_owner. simpl. apply lookup_insert_eq. }
    intros r Hin.
    unfold _check_agent_health in Hin. cbn zeta in Hin.
    set (db1 := put_agent id
                  (set_agent_updated_at now (set_agent_status OFFLINE ag)) db) in *.
    destruct (fold_mark_offline now'
                (filter (stale (now' - heartbeat_timeout self))
                        (map_to_list (agents db1)))
                (db1, [])
                (stale_rows_keys (now' - heartbeat_timeout self) db1))
      as (_ & _ & _ & _ & _ & Hev).
    cbn zeta in Hev. rewrite Hev in Hin. simpl in Hin.
    apply list_elem_of_In, in_map_iff in Hin as ([k ag'] & Heq & Hmem).
    injection Heq as ->.
    apply list_elem_of_In in Hmem.
    apply (proj1 (stale_rows_elem (now' - heartbeat_timeout self) db1 id ag'))
      in Hmem as [Hk [Hst _]].
    unfold db1 in Hk. simpl in Hk. rewrite lookup_insert_eq in Hk.
    injection Hk as <-. destruct Hst; discriminate.
Qed.

Lemma terminate_agent_effect_witness :
  let out := terminate_agent (one_task TaskStatus.IN_PROGRESS BUSY) 7%N "normal" 100 in
  out.1.1 = true
  /\ out.2 = [AgentStopped 7%N "normal"]
  /\ agents out.1.2 !! 7%N
     = Some (set_agent_updated_at 100 (set_agent_status OFFLINE (agent_in BUSY)))
  /\ (forall k, k ≠ 7%N ->
                agents out.1.2 !! k = agents (one_task TaskStatus.IN_PROGRESS BUSY) !! k)
  /\ tasks out.1.2 = tasks (one_task TaskStatus.IN_PROGRESS BUSY)
  /\ (forall r, AgentStopped 7%N r
                ∉ (_check_agent_health (AgentLifecycle.mk 30 90 100) out.1.2 1000).2)
  /\ (forall k task result,
         tasks (one_task TaskStatus.IN_PROGRESS BUSY) !! k = Some task ->
         status task = TaskStatus.IN_PROGRESS ->
         agent_id task = Some 7%N ->
         agents (TaskScheduler.complete_task out.1.2 k result 1000).2 !! 7%N
         = Some (set_agent_updated_at 1000
                   (set_agent_status IDLE
                      (set_agent_updated_at 100
                         (set_agent_status OFFLINE (agent_in BUSY)))))).
Proof.
  apply (proj2 (terminate_agent_effect (AgentLifecycle.mk 30 90 100)
                  (one_task TaskStatus.IN_PROGRESS BUSY) 7%N "normal" 100 1000)
               (agent_in BUSY)).
  reflexivity.
Defined.

End Health.


(** ** Event consumer: registration, stop and commits *)

Section ConsumerLoop.
Import EventConsumer Fixtures.

Lemma handlers_for_register (self : EventConsumer.t) (ty : string) (h : Handler)
    (event : EventDict) :
  handlers_for (register_handler self ty h) event
  = if decide (event_type event = Some ty)
    then handlers_for self event ++ [h]
    else handlers_for self event.
Proof.
  unfold handlers_for, register_handler. simpl.
  destruct (event_type event) as [ty'|]; simpl.
  - destruct (decide (Some ty' = Some ty)) as [[= ->]|Hne].
    + rewrite lookup_insert_eq. reflexivity.
    + rewrite lookup_insert_ne by congruence. reflexivity.
  - destruct (decide (None = Some ty)); [discriminate | reflexivity].
Qed.

Lemma fold_run_handler_app (event : EventDict) (hs : list Handler) (h : Handler)
    (st : State) :
  fold_left (run_handler event) (hs ++ [h]) st
  = run_handler event (fold_left (run_handler event) hs st) h.
Proof. rewrite fold_left_app. reflexivity. Qed.

(** X13. Registration. A handler registered for an event type is called
    for every record of that type, after the handlers registered before
    it; records of any other type are consumed exactly as without it. *)
Theorem register_handler_effect (self : EventConsumer.t) (ty : string) (h : Handler)
    (st : State) (message : Message) (event : EventDict) :
  value message = Some event ->
  (event_type event = Some ty ->
   handled (consume_record (register_handler self ty h) st message)
   = handled (consume_record self st message) ++ [(__name__ h, event)])
  /\ (event_type event ≠ Some ty ->
      consume_record (register_handler self ty h) st message
      = consume_record self st message).
Proof.
  intros Hv. unfold consume_record, _process_message. rewrite Hv.
  rewrite handlers_for_register. split.
  - intros Hty. destruct (decide _) as [_|Hne]; [|contradiction].
    rewrite fold_run_handler_app.
    assert (Hrun : forall s, handled (run_handler event s h)
                             = handled s ++ [(__name__ h, event)]).
    { intros s. unfold run_handler. destruct (call h event); reflexivity. }
    simpl. destruct (enable_auto_commit self); simpl; apply Hrun.
  - intros Hty. destruct (decide _) as [Heq|_]; [contradiction|]. reflexivity.
Qed.

Lemma register_handler_effect_witness :
  handled (consume_record failing_consumer fresh_consumer_state assigned_record)
  = handled (consume_record (EventConsumer.mk false ∅) fresh_consumer_state
               assigned_record)
    ++ [("on_assigned"%string, assigned_event)].
Proof.
  apply (proj1 (register_handler_effect (EventConsumer.mk false ∅) "task.assigned"
                  failing_handler fresh_consumer_state assigned_record
                  assigned_event eq_refl)).
  reflexivity.
Defined.

(** X14. Stop. Once [stop()] has been called, the loop handles and
    commits nothing more, whatever is delivered afterwards. *)
Theorem consume_loop_after_stop (self : EventConsumer.t) (st : State)
    (inputs : list Input) :
  consume_loop self st (StopCalled :: inputs) = stop st.
Proof.
  simpl. induction inputs as [|[m|] inputs IH]; simpl.
  - reflexivity.
  - reflexivity.
  - exact IH.
Qed.

Lemma consume_record_running (self : EventConsumer.t) (st : State) (m : Message) :
  _running (consume_record self st m) = _running st.
Proof.
  unfold consume_record, _process_message.
  destruct (value m) as [event|]; [|reflexivity].
  destruct (run_handlers_effect event (handlers_for self event) st) as (Hr & _).
  destruct (enable_auto_commit self); simpl; exact Hr.
Qed.

Lemma consume_loop_snoc (self : EventConsumer.t) (msgs : list Message) (m : Message) :
  forall st,
    _running st = true ->
    exists st',
      _running st' = true
      /\ consume_loop self st (Delivered <$> (msgs ++ [m])) = consume_record self st' m.
Proof.
  induction msgs as [|m0 msgs IH]; intros st Hrun.
  - exists st. simpl. rewrite Hrun. auto.
  - cbn [app fmap list_fmap consume_loop]. rewrite Hrun. cbn [negb].
    apply IH. rewrite consume_record_running. exact Hrun.
Qed.

Lemma consume_record_committed_auto (self : EventConsumer.t) (st : State) (m : Message) :
  enable_auto_commit self = true ->
  committed (consume_record self st m) = committed st.
Proof.
  intros Hauto. unfold consume_record, _process_message. rewrite Hauto.
  destruct (value m) as [event|]; [|reflexivity].
  destruct (run_handlers_effect event (handlers_for self event) st) as (_ & Hc & _).
  exact Hc.
Qed.

(** X15. Commits. With manual commits, after a batch of records the
    committed offset of the last record's topic and partition is that
    record's offset plus one, provided its value is an event, whatever
    the earlier records were and whatever the handlers did. With
    auto-commit enabled the consumer itself never commits. *)
Theorem consume_commits_last_offset (self : EventConsumer.t) (st : State)
    (msgs : list Message) (m : Message) (event : EventDict) :
  (enable_auto_commit self = false ->
   value m = Some event ->
   committed (consume self st (Delivered <$> (msgs ++ [m])))
     !! (topic m, partition m) = Some (offset m + 1))
  /\ (enable_auto_commit self = true ->
      forall inputs, committed (consume self st inputs) = committed st).
Proof.
  split.
  - intros Hauto Hv. unfold consume.
    destruct (consume_loop_snoc self msgs m
                (mkState true (committed st) (handled st) (logged st)) eq_refl)
      as (st' & _ & ->).
    unfold consume_record, _process_message. rewrite Hv, Hauto. simpl.
    apply lookup_insert_eq.
  - intros Hauto inputs. unfold consume.
    change (committed st)
      with (committed (mkState true (committed st) (handled st) (logged st))) at 2.
    generalize (mkState true (committed st) (handled st) (logged st)).
    induction inputs as [|[m0|] inputs IH]; intros s; simpl.
    + reflexivity.
    + destruct (negb (_running s)); [reflexivity|].
      rewrite IH. apply consume_record_committed_auto. exact Hauto.
    + rewrite IH. reflexivity.
Qed.

Lemma consume_commits_last_offset_witness :
  committed (consume failing_consumer fresh_consumer_state
               (Delivered <$> ([assigned_record; assigned_record] ++ [assigned_record])))
    !! (topic assigned_record, partition assigned_record)
  = Some (offset assigned_record + 1).
Proof.
  apply (proj1 (consume_commits_last_offset failing_consumer fresh_consumer_state
                  [assigned_record; assigned_record] assigned_record assigned_event));
    reflexivity.
Defined.

End ConsumerLoop.

(** ** The task routes *)

Section TaskRoutes.
Import TaskScheduler TaskStatus Routes Fixtures.

(** X16. [PATCH /tasks/{id}] answers "not found" exactly when the task does
    not exist, and then changes nothing; for an existing task it always
    answers "updated". In particular, for a task that is not in progress, a
    request that does not report a failure is answered "updated" although
    the store is left unchanged. *)
Theorem update_task_response (scheduler : TaskScheduler.t) (db : Store) (id : UUID)
    (request : UpdateTaskRequest) (now : datetime) :
  (get_task db id = None -> update_task scheduler db id request now = (NotFound, db))
  /\ (forall t,
        get_task db id = Some t ->
        (update_task scheduler db id request now).1 = Updated
        /\ (status t ≠ IN_PROGRESS -> req_status request ≠ Some FAILED ->
            (update_task scheduler db id request now).2 = db)).
Proof.
  unfold update_task. split.
  - intros ->. reflexivity.
  - intros t Ht. rewrite Ht. split.
    + destruct (if bool_decide _ then _ else _); [reflexivity|].
      destruct (_ && _); [reflexivity|].
      destruct (req_progress request); reflexivity.
    + intros Hst Hreq.
      assert (Hc : forall r, (complete_task db id r now).2 = db).
      { intros r. unfold complete_task. rewrite Ht.
        destruct (bool_decide_reflect (status t = IN_PROGRESS)); [contradiction|].
        reflexivity. }
      assert (Hp : forall p, (update_task_progress db id p None now).2 = db).
      { intros p. unfold update_task_progress. rewrite Ht.
        destruct (bool_decide_reflect (status t = IN_PROGRESS)); [contradiction|].
        reflexivity. }
      destruct (if bool_decide _ then _ else _); [apply Hc|].
      destruct (bool_decide_reflect (req_status request = Some FAILED));
        [contradiction|]. simpl.
      destruct (req_progress request); [apply Hp | reflexivity].
Qed.

Lemma update_task_response_witness :
  (update_task scheduler (one_task COMPLETED AgentStatus.IDLE) 1%N
     (mkUpdate (Some COMPLETED) None (Some "again") None) 100).1 = Updated
  /\ (status (task_in COMPLETED (Some 7%N)) ≠ IN_PROGRESS ->
      req_status (mkUpdate (Some COMPLETED) None (Some "again") None) ≠ Some FAILED ->
      (update_task scheduler (one_task COMPLETED AgentStatus.IDLE) 1%N
         (mkUpdate (Some COMPLETED) None (Some "again") None) 100).2
      = one_task COMPLETED AgentStatus.IDLE).
Proof.
  apply (proj2 (update_task_response scheduler (one_task COMPLETED AgentStatus.IDLE)
                  1%N (mkUpdate (Some COMPLETED) None (Some "again") None) 100)
               (task_in COMPLETED (Some 7%N))).
  reflexivity.
Defined.

(** X17. Through [PATCH /tasks/{id}] a task never becomes failed while it
    has retries left: the route calls [fail_task] with retry on, so a
    reported failure moves such a task to retrying. *)
Theorem update_task_never_fails_early (scheduler : TaskScheduler.t) (db : Store)
    (id : UUID) (request : UpdateTaskRequest) (now : datetime) (t t' : Task) :
  get_task db id = Some t ->
  tasks (update_task scheduler db id request now).2 !! id = Some t' ->
  status t' = FAILED ->
  status t = FAILED
  \/ max_retries scheduler ≤ default 0 (retry_count (metadata_ t)).
Proof.
  intros Ht Ht' Hfailed. unfold update_task in Ht'. rewrite Ht in Ht'.
  unfold get_task in Ht.
  destruct (if bool_decide _ then _ else _) as [r|].
  - simpl in Ht'. unfold complete_task, get_task in Ht'. rewrite Ht in Ht'.
    destruct (bool_decide (status t = IN_PROGRESS)); simpl in Ht'.
    + rewrite free_agent_tasks in Ht'. simpl in Ht'. rewrite lookup_insert_eq in Ht'.
      injection Ht' as <-. discriminate.
    + left. congruence.
  - destruct (_ && _); simpl in Ht'.
    + unfold fail_task, get_task in Ht'. rewrite Ht in Ht'. simpl in Ht'.
      rewrite free_agent_tasks in Ht'. simpl in Ht'. rewrite lookup_insert_eq in Ht'.
      injection Ht' as <-.
      destruct (default 0 (retry_count (metadata_ t)) <? max_retries scheduler)
        eqn:Hlt; [discriminate|].
      right. apply Z.ltb_ge in Hlt. exact Hlt.
    + destruct (req_progress request) as [p|]; simpl in Ht'; [|left; congruence].
      unfold update_task_progress, get_task in Ht'. rewrite Ht in Ht'.
      destruct (bool_decide_reflect (status t = IN_PROGRESS)) as [Hst|Hst];
        simpl in Ht'.
      * left. congruence.
      * left. congruence.
Qed.

(** With no retry allowed by the scheduler, a reported failure is final. *)
Lemma update_task_never_fails_early_witness :
  status (task_in IN_PROGRESS (Some 7%N)) = FAILED
  \/ max_retries (TaskScheduler.mk 300 0 5 10000)
     ≤ default 0 (retry_count (metadata_ (task_in IN_PROGRESS (Some 7%N)))).
Proof.
  apply (update_task_never_fails_early (TaskScheduler.mk 300 0 5 10000)
           (one_task IN_PROGRESS AgentStatus.BUSY) 1%N
           (mkUpdate (Some FAILED) None None (Some "boom")) 100
           (task_in IN_PROGRESS (Some 7%N))
           (set_task_output_data (OutError "boom")
              (set_task_completed_at 100
                 (set_task_status FAILED (task_in IN_PROGRESS (Some 7%N))))));
    reflexivity.
Defined.

End TaskRoutes.


(** ** Webhook dispatcher *)

Section WebhookTrigger.
Import WebhookDispatcher.

Lemma store_delivery_frame (st : WebhookDispatcher.t) (d : WebhookDelivery.t) :
  _webhooks (_store_delivery st d) = _webhooks st
  /\ _delivery_queue (_store_delivery st d) = _delivery_queue st
  /\ posted (_store_delivery st d) = posted st
  /\ redis_deliveries (_store_delivery st d) = redis_deliveries st.
Proof. unfold _store_delivery. auto. Qed.

Lemma save_webhook_frame (st : WebhookDispatcher.t) (w : WebhookConfig.t) :
  _webhooks (_save_webhook st w) = _webhooks st
  /\ _delivery_queue (_save_webhook st w) = _delivery_queue st
  /\ posted (_save_webhook st w) = posted st
  /\ redis_deliveries (_save_webhook st w) = redis_deliveries st.
Proof. unfold _save_webhook. auto. Qed.

Lemma trigger_fold (event : WebhookEvent.t) (ids : nat -> string) (now : datetime)
    (ws : list (string * WebhookConfig.t)) :
  forall (acc : WebhookDispatcher.t * nat),
    let out :=
      fold_left
        (fun (acc : WebhookDispatcher.t * nat) (kw : string * WebhookConfig.t) =>
           if subscribed (WebhookEvent.type event) kw.2
           then (_queue_delivery acc.1 kw.2 event (ids acc.2) now, S acc.2)
           else acc)
        ws acc in
    exists new,
      _delivery_queue out.1 = _delivery_queue acc.1 ++ new
      /\ Forall2 (fresh_for (WebhookEvent.type event) now) new
           (filter (fun kw => subscribed (WebhookEvent.type event) kw.2 = true) ws)
      /\ _webhooks out.1 = _webhooks acc.1
      /\ posted out.1 = posted acc.1.
Proof.
  induction ws as [|kw ws IH]; intros acc; cbn zeta.
  - exists []. rewrite app_nil_r. repeat split; constructor.
  - cbn [fold_left]. rewrite filter_cons.
    destruct (subscribed (WebhookEvent.type event) kw.2) eqn:Hsub.
    + destruct (IH (_queue_delivery acc.1 kw.2 event (ids acc.2) now, S acc.2))
        as (new & Hq & Hall & Hw & Hp).
      cbn zeta in *. simpl in Hq, Hw, Hp.
      destruct (store_delivery_frame acc.1
                  (WebhookDelivery.mk (ids acc.2) (WebhookConfig.id kw.2)
                     (WebhookEvent.type event) event DeliveryStatus.PENDING 0
                     (WebhookConfig.retry_count kw.2) now now None None None None None))
        as (Hw' & Hq' & Hp' & _).
      rewrite Hq' in Hq. rewrite Hw' in Hw. rewrite Hp' in Hp.
      eexists (_ :: new). rewrite Hq, <- app_assoc. simpl.
      destruct (decide (true = true)) as [_|Hne]; [|contradiction].
      split; [reflexivity|]. split; [|auto].
      constructor; [|exact Hall]. repeat split.
    + destruct (IH acc) as (new & Hq & Hall & Hw & Hp).
      exists new. destruct (decide (false = true)); [discriminate|]. auto.
Qed.

(** X18. [trigger_event] appends to the queue one delivery per endpoint
    that is active and subscribed to the event type or to ["*"], in
    registration order: pending, not yet attempted, due now, with the
    endpoint's [retry_count] as attempt budget. Endpoints that are paused,
    disabled or failed get none, and nothing is posted yet. *)
Theorem trigger_event_queues (st : WebhookDispatcher.t)
    (event_type : WebhookEventType.t) (data : string) (metadata : option string)
    (event_id : string) (ids : nat -> string) (now : datetime) :
  let st' := trigger_event st event_type data metadata event_id ids now in
  exists new,
    _delivery_queue st' = _delivery_queue st ++ new
    /\ Forall2 (fresh_for event_type now) new
         (filter (fun kw => subscribed event_type kw.2 = true) (_webhooks st))
    /\ _webhooks st' = _webhooks st
    /\ posted st' = posted st.
Proof.
  cbn zeta. unfold trigger_event.
  apply (trigger_fold
           (WebhookEvent.mk event_id event_type now data (default "{}" metadata))
           ids now (_webhooks st) (st, O)).
Qed.

Lemma attempt_request (rt : Runtime) (w : WebhookConfig.t) (d : WebhookDelivery.t)
    (o : Outcome) (duration : Q) (now : datetime) :
  (attempt rt w d o duration now).2
  = let content := json_dumps rt (WebhookDelivery.payload d) in
    mkRequest (WebhookConfig.url w) content
      (request_headers rt w
         (WebhookDelivery.set_status DeliveryStatus.PENDING
            (WebhookDelivery.set_attempt_count (WebhookDelivery.attempt_count d + 1) d))
         (WebhookService._sign_payload content (WebhookConfig.secret w)) now)
      (WebhookConfig.timeout_seconds w).
Proof.
  unfold attempt. destruct o as [code text|msg]; [|reflexivity].
  destruct ((200 <=? code) && (code <? 300)); reflexivity.
Qed.

(** X19. The request of an attempt carries the serialised payload as body
    and, under [X-Webhook-Signature], the signature of that body under the
    endpoint's secret, which the recipient's check accepts; but when the
    endpoint's own headers define [X-Webhook-Signature], their value is
    sent instead. The attempt number under [X-Attempt] is the delivery's
    counter plus one, unless overridden in the same way. *)
Theorem attempt_request_signature (rt : Runtime) (w : WebhookConfig.t)
    (d : WebhookDelivery.t) (o : Outcome) (duration : Q) (now : datetime) :
  let request := (attempt rt w d o duration now).2 in
  req_url request = WebhookConfig.url w
  /\ req_content request = json_dumps rt (WebhookDelivery.payload d)
  /\ req_headers request !! "X-Webhook-Signature"%string
     = Some (default (WebhookService._sign_payload (req_content request)
                        (WebhookConfig.secret w))
                     (WebhookConfig.headers w !! "X-Webhook-Signature"%string))
  /\ (WebhookConfig.headers w !! "X-Webhook-Signature"%string = None ->
      exists signature,
        req_headers request !! "X-Webhook-Signature"%string = Some signature
        /\ WebhookService.verify signature (req_content request)
             (WebhookConfig.secret w) = true)
  /\ req_headers request !! "X-Attempt"%string
     = Some (default (str_int rt (WebhookDelivery.attempt_count d + 1))
                     (WebhookConfig.headers w !! "X-Attempt"%string)).
Proof.
  cbn zeta. rewrite attempt_request. cbn zeta. simpl.
  assert (Hsig : request_headers rt w
                   (WebhookDelivery.set_status DeliveryStatus.PENDING
                      (WebhookDelivery.set_attempt_count
                         (WebhookDelivery.attempt_count d + 1) d))
                   (WebhookService._sign_payload
                      (json_dumps rt (WebhookDelivery.payload d))
                      (WebhookConfig.secret w)) now
                 !! "X-Webhook-Signature"%string
                 = Some (default (WebhookService._sign_payload
                                    (json_dumps rt (WebhookDelivery.payload d))
                                    (WebhookConfig.secret w))
                                 (WebhookConfig.headers w
                                    !! "X-Webhook-Signature"%string))).
  { unfold request_headers. rewrite lookup_union.
    destruct (WebhookConfig.headers w !! "X-Webhook-Signature"%string) as [v|];
      simpl.
    - destruct (_ !! _); reflexivity.
    - rewrite !lookup_insert_ne by discriminate. rewrite lookup_insert_eq.
      reflexivity. }
  split; [reflexivity|]. split; [reflexivity|]. split; [exact Hsig|]. split.
  - intros Hnone. rewrite Hsig, Hnone. simpl. eexists. split; [reflexivity|].
    unfold WebhookService.verify. apply String.eqb_refl.
  - unfold request_headers. rewrite lookup_union.
    destruct (WebhookConfig.headers w !! "X-Attempt"%string) as [v|]; simpl.
    + destruct (_ !! _); reflexivity.
    + rewrite !lookup_insert_ne by discriminate. rewrite lookup_insert_eq.
      reflexivity.
Qed.

Lemma attempt_request_signature_witness :
  exists signature,
    req_headers
      (attempt WebhookFixtures.runtime WebhookFixtures.hook
         WebhookFixtures.first_delivery (Raised "refused") 0 100).2
      !! "X-Webhook-Signature"%string = Some signature
    /\ WebhookService.verify signature
         (req_content
            (attempt WebhookFixtures.runtime WebhookFixtures.hook
               WebhookFixtures.first_delivery (Raised "refused") 0 100).2)
         (WebhookConfig.secret WebhookFixtures.hook) = true.
Proof.
  apply (proj1 (proj2 (proj2 (proj2
           (attempt_request_signature WebhookFixtures.runtime WebhookFixtures.hook
              WebhookFixtures.first_delivery (Raised "refused") 0 100))))).
  reflexivity.
Defined.

End WebhookTrigger.


(** ** Webhook dispatcher: attempts, retries and the attempt budget *)

Section WebhookAttempts.
Import WebhookDispatcher.









End WebhookAttempts.


(** ** Webhook dispatcher: back-off, pausing and re-activation *)

Section WebhookRetries.
Import WebhookDispatcher.

Lemma attempt_delivery_id (rt : Runtime) (w : WebhookConfig.t) (d : WebhookDelivery.t)
    (o : Outcome) (duration : Q) (now : datetime) :
  WebhookDelivery.webhook_id (attempt rt w d o duration now).1.2
  = WebhookDelivery.webhook_id d.
Proof.
  unfold attempt, on_failure. destruct o as [code text|msg]; simpl.
  - destruct ((200 <=? code) && (code <? 300)); simpl; [reflexivity|].
    destruct (_ <=? _); [destruct (10 <=? _)|]; reflexivity.
  - destruct (_ <=? _); [destruct (10 <=? _)|]; reflexivity.
Qed.

Lemma dict_get_set_eq {V} (k : string) (v : V) (d : list (string * V)) :
  dict_get k (dict_set k v d) = Some v.
Proof.
  induction d as [|[k' v'] d IH]; simpl.
  - rewrite String.eqb_refl. reflexivity.
  - destruct (String.eqb k k') eqn:Hk; simpl.
    + rewrite String.eqb_refl. reflexivity.
    + rewrite Hk. exact IH.
Qed.

Lemma dict_get_elem {V} (k : string) (v : V) (d : list (string * V)) :
  dict_get k d = Some v -> (k, v) ∈ d.
Proof.
  induction d as [|[k' v'] d IH]; simpl; [discriminate|].
  destruct (String.eqb k k') eqn:Hk.
  - intros [= ->]. apply String.eqb_eq in Hk as ->. apply list_elem_of_here.
  - intros H. apply list_elem_of_further. auto.
Qed.

Lemma dict_set_elem {V} (k : string) (v : V) (d : list (string * V))
    (x : string * V) :
  NoDup d.*1 -> x ∈ dict_set k v d -> x = (k, v) \/ (x ∈ d /\ x.1 ≠ k).
Proof.
  induction d as [|[k' v'] d IH]; simpl; intros Hnd Hx.
  - apply list_elem_of_singleton in Hx. auto.
  - rewrite ?fmap_cons in Hnd. apply NoDup_cons in Hnd as [Hk' Hnd].
    destruct (String.eqb k k') eqn:Hk.
    + apply String.eqb_eq in Hk as ->.
      apply elem_of_cons in Hx as [-> | Hx]; [auto|].
      right. split; [apply list_elem_of_further; exact Hx|].
      intros <-. apply Hk'. apply (list_elem_of_fmap_2 fst). exact Hx.
    + apply String.eqb_neq in Hk.
      apply elem_of_cons in Hx as [-> | Hx].
      * right. split; [apply list_elem_of_here | simpl; congruence].
      * destruct (IH Hnd Hx) as [-> | [Hin Hne]]; [auto|].
        right. split; [apply list_elem_of_further; exact Hin | exact Hne].
Qed.

Lemma dict_del_elem {V} (k : string) (d : list (string * V)) (x : string * V) :
  NoDup d.*1 -> x ∈ dict_del k d -> x ∈ d /\ x.1 ≠ k.
Proof.
  induction d as [|[k' v'] d IH]; simpl; intros Hnd Hx.
  - apply elem_of_nil in Hx. contradiction.
  - rewrite ?fmap_cons in Hnd. apply NoDup_cons in Hnd as [Hk' Hnd].
    destruct (String.eqb k k') eqn:Hk.
    + apply String.eqb_eq in Hk as ->.
      split; [apply list_elem_of_further; exact Hx|].
      intros <-. apply Hk'. apply (list_elem_of_fmap_2 fst). exact Hx.
    + apply String.eqb_neq in Hk.
      apply elem_of_cons in Hx as [-> | Hx].
      * split; [apply list_elem_of_here | simpl; congruence].
      * destruct (IH Hnd Hx) as [Hin Hne].
        split; [apply list_elem_of_further; exact Hin | exact Hne].
Qed.

Lemma update_field_status {A} (v : option A)
    (set : A -> WebhookConfig.t -> WebhookConfig.t) (w : WebhookConfig.t) :
  (forall x w0, WebhookConfig.status (set x w0) = WebhookConfig.status w0) ->
  WebhookConfig.status (update_field v set w) = WebhookConfig.status w.
Proof. intros H. destruct v; simpl; auto. Qed.

(** No delivery is queued by an event for an endpoint that a list of
    endpoints does not hold as active. *)
Lemma trigger_skips (st : WebhookDispatcher.t) (id : string)
    (event_type : WebhookEventType.t) (data : string) (metadata : option string)
    (event_id : string) (ids : nat -> string) (now : datetime) :
  (forall kw, kw ∈ _webhooks st -> WebhookConfig.id kw.2 = id ->
              WebhookConfig.status kw.2 ≠ WebhookStatus.ACTIVE) ->
  exists new,
    _delivery_queue (trigger_event st event_type data metadata event_id ids now)
    = _delivery_queue st ++ new
    /\ Forall (fun d => WebhookDelivery.webhook_id d ≠ id) new.
Proof.
  intros Hskip. unfold trigger_event.
  destruct (trigger_fold
              (WebhookEvent.mk event_id event_type now data (default "{}" metadata))
              ids now (_webhooks st) (st, O)) as (new & Hq & Hall & _).
  cbn zeta in *. simpl in Hq, Hall. exists new. split; [exact Hq|].
  apply Forall_forall. intros d Hd.
  apply list_elem_of_lookup in Hd as [i Hi].
  destruct (Forall2_lookup_l _ _ _ _ _ Hall Hi) as (kw & Hkw & Hfresh & _).
  apply list_elem_of_lookup_2 in Hkw.
  apply list_elem_of_filter in Hkw as [Hsub Hin].
  rewrite Hfresh. intros Hid. apply (Hskip kw Hin Hid).
  unfold subscribed in Hsub. apply andb_true_iff in Hsub as [Hact _].
  apply bool_decide_eq_true_1 in Hact. exact Hact.
Qed.

(** X22. Pausing and deleting. After [update_webhook] has given an
    endpoint a status other than active, and after [delete_webhook], an
    event queues no delivery for that endpoint. A delivery of a paused
    endpoint that is already queued is posted all the same. *)
Theorem inactive_endpoint_gets_no_delivery (rt : Runtime) (st : WebhookDispatcher.t)
    (id : string) (name url : option string)
    (events : option (list WebhookEventType.t)) (s : WebhookStatus.t)
    (headers : option (gmap string string)) (now : datetime)
    (event_type : WebhookEventType.t) (data : string) (metadata : option string)
    (event_id : string) (ids : nat -> string) :
  keys_ok st ->
  s ≠ WebhookStatus.ACTIVE ->
  is_Some (get_webhook st id) ->
  let paused := (update_webhook st id name url events (Some s) headers now).2 in
  let deleted := (delete_webhook st id).2 in
  (exists new,
      _delivery_queue (trigger_event paused event_type data metadata event_id ids now)
      = _delivery_queue paused ++ new
      /\ Forall (fun d => WebhookDelivery.webhook_id d ≠ id) new)
  /\ (exists new,
         _delivery_queue (trigger_event deleted event_type data metadata event_id ids now)
         = _delivery_queue deleted ++ new
         /\ Forall (fun d => WebhookDelivery.webhook_id d ≠ id) new)
  /\ get_webhook deleted id = None
  /\ (forall d o duration,
         WebhookDelivery.webhook_id d = id ->
         length (posted (_process_delivery rt paused d o duration now))
         = S (length (posted paused))).
Proof.
  intros [Hnd Hkeys] Hs [w Hw]. unfold get_webhook in Hw. cbn zeta.
  assert (Hpaused :
    exists w', _webhooks (update_webhook st id name url events (Some s) headers now).2
               = dict_set id w' (_webhooks st)
               /\ WebhookConfig.status w' = s).
  { unfold update_webhook. rewrite Hw. eexists. split.
    - destruct (save_webhook_frame
                  (with_webhooks (dict_set id
                     (WebhookConfig.set_updated_at now
                        (update_field headers WebhookConfig.set_headers
                           (update_field (Some s) WebhookConfig.set_status
                              (update_field events WebhookConfig.set_events
                                 (update_field url WebhookConfig.set_url
                                    (update_field name WebhookConfig.set_name w))))))
                     (_webhooks st)) st)
                  (WebhookConfig.set_updated_at now
                     (update_field headers WebhookConfig.set_headers
                        (update_field (Some s) WebhookConfig.set_status
                           (update_field events WebhookConfig.set_events
                              (update_field url WebhookConfig.set_url
                                 (update_field name WebhookConfig.set_name w)))))))
        as (Hws & _). simpl. exact Hws.
    - simpl. rewrite update_field_status by reflexivity. reflexivity. }
  destruct Hpaused as (w' & Hws & Hst).
  assert (Hdeleted : _webhooks (delete_webhook st id).2 = dict_del id (_webhooks st)).
  { unfold delete_webhook. rewrite Hw. reflexivity. }
  split; [|split; [|split]].
  - apply trigger_skips. intros kw Hin Hid. rewrite Hws in Hin.
    apply (dict_set_elem id w' (_webhooks st) kw Hnd) in Hin as [-> | [Hin Hne]].
    + simpl. rewrite Hst. exact Hs.
    + exfalso. apply Hne. destruct kw as [k w0]. simpl in *.
      rewrite <- (Hkeys k w0 Hin). exact Hid.
  - apply trigger_skips. intros kw Hin Hid. rewrite Hdeleted in Hin.
    apply (dict_del_elem id (_webhooks st) kw Hnd) in Hin as [Hin Hne].
    exfalso. apply Hne. destruct kw as [k w0]. simpl in *.
    rewrite <- (Hkeys k w0 Hin). exact Hid.
  - unfold get_webhook. rewrite Hdeleted.
    destruct (dict_get id (dict_del id (_webhooks st))) as [w0|] eqn:Hget;
      [|reflexivity].
    apply dict_get_elem in Hget.
    apply (dict_del_elem id (_webhooks st) (id, w0) Hnd) in Hget as [_ Hne].
    contradiction.
  - intros d o duration Hid. unfold _process_delivery. rewrite Hid, Hws.
    rewrite dict_get_set_eq.
    destruct (attempt rt w' d o duration now) as [[w1 d1] request].
    try match goal with
    | |- context [_save_webhook ?a ?b] =>
        destruct (save_webhook_frame a b) as (_ & _ & -> & _)
    end.
    try match goal with
    | |- context [_store_delivery ?a ?b] =>
        destruct (store_delivery_frame a b) as (_ & _ & -> & _)
    end.
    simpl. rewrite length_app. simpl. lia.
Qed.

Lemma one_hook_keys_ok : keys_ok WebhookFixtures.one_hook.
Proof.
  split.
  - simpl. apply NoDup_singleton.
  - intros k w H. simpl in H. apply list_elem_of_singleton in H.
    injection H as -> ->. reflexivity.
Qed.

Lemma inactive_endpoint_gets_no_delivery_witness :
  get_webhook (delete_webhook WebhookFixtures.one_hook "w1").2 "w1" = None.
Proof.
  apply (proj1 (proj2 (proj2
           (inactive_endpoint_gets_no_delivery WebhookFixtures.runtime
              WebhookFixtures.one_hook "w1" None None None WebhookStatus.PAUSED None 50
              WebhookEventType.TASK_FAILED "{}" None "e2" (fun _ => "d2"%string)
              one_hook_keys_ok ltac:(discriminate) ltac:(eexists; reflexivity))))).
Defined.

(** X23. Re-activation. [update_webhook] never touches the failure
    counter, the success counter or the secret; so an endpoint set back to
    active after ten failed attempts is marked failed again by the next
    attempt that exhausts a delivery's budget. A 2xx response resets the
    counter to zero but leaves the status as it is. *)
Theorem reactivation_keeps_failure_count (rt : Runtime) (st : WebhookDispatcher.t)
    (id : string) (name url : option string)
    (events : option (list WebhookEventType.t)) (status : option WebhookStatus.t)
    (headers : option (gmap string string)) (now : datetime) (w : WebhookConfig.t) :
  get_webhook st id = Some w ->
  exists w',
    (update_webhook st id name url events status headers now).1 = Some w'
    /\ get_webhook (update_webhook st id name url events status headers now).2 id
       = Some w'
    /\ WebhookConfig.failure_count w' = WebhookConfig.failure_count w
    /\ WebhookConfig.success_count w' = WebhookConfig.success_count w
    /\ WebhookConfig.secret w' = WebhookConfig.secret w
    /\ WebhookConfig.status w' = default (WebhookConfig.status w) status
    /\ (forall d o duration t,
           let w'' := (attempt rt w' d o duration t).1.1 in
           (is_success o = false ->
            9 ≤ WebhookConfig.failure_count w ->
            WebhookDelivery.max_attempts d ≤ WebhookDelivery.attempt_count d + 1 ->
            WebhookConfig.status w'' = WebhookStatus.FAILED)
           /\ (is_success o = true ->
               WebhookConfig.failure_count w'' = 0
               /\ WebhookConfig.status w'' = WebhookConfig.status w')).
Proof.
  unfold get_webhook. intros Hw. unfold update_webhook. rewrite Hw.
  eexists. split; [reflexivity|]. split.
  { simpl.
    try match goal with
    | |- context [_save_webhook ?a ?b] =>
        destruct (save_webhook_frame a b) as (-> & _)
    end.
    simpl. apply dict_get_set_eq. }
  assert (Hf : forall {A} (v : option A) set w0,
             (forall x w1, WebhookConfig.failure_count (set x w1)
                           = WebhookConfig.failure_count w1
                           /\ WebhookConfig.success_count (set x w1)
                              = WebhookConfig.success_count w1
                           /\ WebhookConfig.secret (set x w1) = WebhookConfig.secret w1) ->
             WebhookConfig.failure_count (update_field v set w0)
             = WebhookConfig.failure_count w0
             /\ WebhookConfig.success_count (update_field v set w0)
                = WebhookConfig.success_count w0
             /\ WebhookConfig.secret (update_field v set w0) = WebhookConfig.secret w0).
  { intros A v set w0 H. destruct v; simpl; auto. }
  set (w1 := update_field name WebhookConfig.set_name w).
  set (w2 := update_field url WebhookConfig.set_url w1).
  set (w3 := update_field events WebhookConfig.set_events w2).
  set (w4 := update_field status WebhookConfig.set_status w3).
  set (w5 := update_field headers WebhookConfig.set_headers w4).
  destruct (Hf _ name WebhookConfig.set_name w) as (F1 & S1 & C1); [auto|].
  destruct (Hf _ url WebhookConfig.set_url w1) as (F2 & S2 & C2); [auto|].
  destruct (Hf _ events WebhookConfig.set_events w2) as (F3 & S3 & C3); [auto|].
  destruct (Hf _ status WebhookConfig.set_status w3) as (F4 & S4 & C4); [auto|].
  destruct (Hf _ headers WebhookConfig.set_headers w4) as (F5 & S5 & C5); [auto|].
  fold w1 in F1, S1, C1. fold w2 in F2, S2, C2. fold w3 in F3, S3, C3.
  fold w4 in F4, S4, C4. fold w5 in F5, S5, C5.
  assert (Hcount : WebhookConfig.failure_count (WebhookConfig.set_updated_at now w5)
                   = WebhookConfig.failure_count w).
  { simpl. congruence. }
  split; [exact Hcount|]. split; [simpl; congruence|]. split; [simpl; congruence|].
  split.
  { simpl. unfold w5. rewrite update_field_status by reflexivity.
    unfold w4. destruct status as [s|]; simpl.
    - reflexivity.
    - unfold w3. rewrite update_field_status by reflexivity.
      unfold w2. rewrite update_field_status by reflexivity.
      unfold w1. rewrite update_field_status by reflexivity. reflexivity. }
  intros d o duration t. cbn zeta. split.
  - intros Hfail Hnine Hmax. unfold attempt.
    assert (Hon : forall d0 msg,
               WebhookDelivery.max_attempts d0 = WebhookDelivery.max_attempts d ->
               WebhookDelivery.attempt_count d0 = WebhookDelivery.attempt_count d + 1 ->
               WebhookConfig.status
                 (on_failure (WebhookConfig.set_updated_at now w5) d0 msg t).1
               = WebhookStatus.FAILED).
    { intros d0 msg Hm Ha. unfold on_failure. simpl. rewrite Hm, Ha.
      destruct (WebhookDelivery.max_attempts d <=? WebhookDelivery.attempt_count d + 1)
        eqn:Hle; [|apply Z.leb_gt in Hle; lia].
      simpl in Hcount. rewrite Hcount.
      destruct (10 <=? WebhookConfig.failure_count w + 1) eqn:Hten;
        [reflexivity | apply Z.leb_gt in Hten; lia]. }
    destruct o as [code text|msg]; simpl in Hfail.
    + rewrite Hfail. simpl. apply Hon; reflexivity.
    + simpl. apply Hon; reflexivity.
  - intros Hok. unfold attempt. destruct o as [code text|msg]; simpl in Hok;
      [|discriminate]. rewrite Hok. simpl. split; reflexivity.
Qed.

Lemma reactivation_keeps_failure_count_witness :
  exists w',
    (update_webhook WebhookFixtures.one_hook "w1" None None None
       (Some WebhookStatus.ACTIVE) None 50).1 = Some w'
    /\ WebhookConfig.failure_count w'
       = WebhookConfig.failure_count WebhookFixtures.hook.
Proof.
  destruct (reactivation_keeps_failure_count WebhookFixtures.runtime
              WebhookFixtures.one_hook "w1" None None None
              (Some WebhookStatus.ACTIVE) None 50 WebhookFixtures.hook eq_refl)
    as (w' & H1 & _ & H2 & _).
  exists w'. split; assumption.
Defined.

End WebhookRetries.


(** ** Webhook dispatcher: the endpoint dictionary stays well keyed *)

Section WebhookKeys.
Import WebhookDispatcher.

Lemma dict_set_keys_elem {V} (k : string) (v : V) (d : list (string * V)) (x : string) :
  x ∈ (dict_set k v d).*1 -> x = k \/ x ∈ d.*1.
Proof.
  induction d as [|[k' v'] d IH]; simpl; intros Hx.
  - apply list_elem_of_singleton in Hx. auto.
  - destruct (String.eqb k k') eqn:Hk.
    + apply String.eqb_eq in Hk as ->. right. exact Hx.
    + rewrite ?fmap_cons in Hx. apply elem_of_cons in Hx as [->|Hx].
      * right. apply list_elem_of_here.
      * destruct (IH Hx) as [->|Hin]; [auto|]. right. apply list_elem_of_further, Hin.
Qed.

Lemma dict_set_NoDup {V} (k : string) (v : V) (d : list (string * V)) :
  NoDup d.*1 -> NoDup (dict_set k v d).*1.
Proof.
  induction d as [|[k' v'] d IH]; simpl; intros Hnd.
  - apply NoDup_singleton.
  - rewrite ?fmap_cons in Hnd. apply NoDup_cons in Hnd as [Hk' Hnd].
    destruct (String.eqb k k') eqn:Hk.
    + apply String.eqb_eq in Hk as ->. apply NoDup_cons. split; assumption.
    + apply String.eqb_neq in Hk. rewrite ?fmap_cons. apply NoDup_cons. split; [|auto].
      intros Hin. apply dict_set_keys_elem in Hin as [Heq|Hin];
        [simpl in Heq; congruence | auto].
Qed.

Lemma dict_del_sublist {V} (k : string) (d : list (string * V)) :
  dict_del k d `sublist_of` d.
Proof.
  induction d as [|[k' v'] d IH]; simpl; [constructor|].
  destruct (String.eqb k k').
  - apply sublist_cons. reflexivity.
  - apply sublist_skip. exact IH.
Qed.

Lemma keys_ok_set (st : WebhookDispatcher.t) (k : string) (w : WebhookConfig.t)
    (ws : list (string * WebhookConfig.t)) :
  NoDup ws.*1 ->
  (forall k0 w0, (k0, w0) ∈ ws -> WebhookConfig.id w0 = k0) ->
  WebhookConfig.id w = k ->
  NoDup (dict_set k w ws).*1
  /\ forall k0 w0, (k0, w0) ∈ dict_set k w ws -> WebhookConfig.id w0 = k0.
Proof.
  intros Hnd Hkeys Hid. split; [apply dict_set_NoDup, Hnd|].
  intros k0 w0 Hin.
  apply (dict_set_elem k w ws (k0, w0) Hnd) in Hin as [[= -> ->]|[Hin _]]; auto.
Qed.

Lemma attempt_config_id (rt : Runtime) (w : WebhookConfig.t) (d : WebhookDelivery.t)
    (o : Outcome) (duration : Q) (now : datetime) :
  WebhookConfig.id (attempt rt w d o duration now).1.1 = WebhookConfig.id w.
Proof.
  unfold attempt, on_failure. destruct o as [code text|msg]; simpl.
  - destruct ((200 <=? code) && (code <? 300)); simpl; [reflexivity|].
    destruct (_ <=? _); [destruct (10 <=? _)|]; reflexivity.
  - destruct (_ <=? _); [destruct (10 <=? _)|]; reflexivity.
Qed.

Lemma update_field_id {A} (v : option A)
    (set : A -> WebhookConfig.t -> WebhookConfig.t) (w : WebhookConfig.t) :
  (forall x w0, WebhookConfig.id (set x w0) = WebhookConfig.id w0) ->
  WebhookConfig.id (update_field v set w) = WebhookConfig.id w.
Proof. intros H. destruct v; simpl; auto. Qed.

Lemma step_keys_ok (rt : Runtime) (st : WebhookDispatcher.t) (s : Step)
    (now : datetime) :
  keys_ok st -> keys_ok (step rt st s now).
Proof.
  intros Hok. pose proof Hok as [Hnd Hkeys]. unfold keys_ok.
  destruct s as [name url events secret headers metadata wid generated
                |wid name url events status headers|wid
                |ty data metadata eid ids|o duration| |up]; simpl.
  - unfold register_webhook. cbn zeta. simpl.
    try match goal with
    | |- context [_save_webhook ?a ?b] =>
        destruct (save_webhook_frame a b) as (-> & _)
    end.
    simpl. apply (keys_ok_set st); auto.
  - unfold update_webhook.
    destruct (dict_get wid (_webhooks st)) as [w|] eqn:Hw; [|exact Hok].
    simpl.
    try match goal with
    | |- context [_save_webhook ?a ?b] =>
        destruct (save_webhook_frame a b) as (-> & _)
    end.
    simpl. apply (keys_ok_set st); auto. simpl.
    rewrite !update_field_id by reflexivity.
    apply Hkeys, dict_get_elem, Hw.
  - unfold delete_webhook.
    destruct (dict_get wid (_webhooks st)) as [w|] eqn:Hw; [|exact Hok].
    simpl. split.
    + eapply sublist_NoDup; [exact Hnd|]. apply fmap_sublist, dict_del_sublist.
    + intros k0 w0 Hin. apply Hkeys.
      eapply elem_of_sublist; [exact Hin | apply dict_del_sublist].
  - unfold trigger_event.
    destruct (trigger_fold
                (WebhookEvent.mk eid ty now data (default "{}" metadata))
                ids now (_webhooks st) (st, O)) as (new & _ & _ & Hw & _).
    cbn zeta in *. simpl in Hw. rewrite Hw. exact Hok.
  - unfold worker_step. destruct (_delivery_queue st) as [|d rest]; [exact Hok|].
    unfold _process_delivery. simpl.
    destruct (dict_get (WebhookDelivery.webhook_id d) (_webhooks st)) as [w|] eqn:Hw;
      [|exact Hok].
    pose proof (attempt_config_id rt w d o duration now) as Hid.
    pose proof (attempt_delivery_id rt w d o duration now) as Hwid.
    destruct (attempt rt w d o duration now) as [[w' d'] request].
    simpl in Hid, Hwid.
    try match goal with
    | |- context [_save_webhook ?a ?b] =>
        destruct (save_webhook_frame a b) as (-> & _)
    end.
    try match goal with
    | |- context [_store_delivery ?a ?b] =>
        destruct (store_delivery_frame a b) as (-> & _)
    end.
    simpl. apply (keys_ok_set st); auto.
    rewrite Hid, Hwid. apply Hkeys, dict_get_elem, Hw.
  - exact Hok.
  - exact Hok.
Qed.

(** [keys_ok] holds of every state the service reaches from one where it
    holds, so of every state reached from an empty service. *)
Lemma run_keys_ok (rt : Runtime) (st : WebhookDispatcher.t)
    (steps : list (Step * datetime)) :
  keys_ok st -> keys_ok (run rt st steps).
Proof.
  revert st. induction steps as [|[s now] steps IH]; intros st Hok; simpl.
  - exact Hok.
  - apply IH, step_keys_ok, Hok.
Qed.

End WebhookKeys.


(** ** Webhook dispatcher: a delivery is attempted once *)

Section WebhookSingleAttempt.
Import WebhookDispatcher.






End WebhookSingleAttempt.


(** ** Task scheduler: what no operation writes *)

Section SchedulerStoredMetadata.
Import TaskScheduler TaskStatus SchedulerLoop Fixtures.

Lemma task_effect_keeps (self : TaskScheduler.t) (now : datetime) (c : Call)
    (t t' : Task) :
  task_effect self now c t = Some t' ->
  metadata_ t' = metadata_ t
  /\ description t' = description t /\ priority t' = priority t
  /\ input_data t' = input_data t /\ deadline t' = deadline t
  /\ created_at t' = created_at t
  /\ (status t' = FAILED ->
      exists k error retry,
        c = FailTask k error retry
        /\ retry && (default 0 (retry_count (metadata_ t)) <? max_retries self) = false).
Proof.
  intros Heff.
  destruct c as [? a|?|? frac message|? result|? error retry|?|? d]; simpl in Heff.
  - destruct (_ || _); [|discriminate]. injection Heff as <-.
    repeat split; try reflexivity. discriminate.
  - destruct (bool_decide _); [|discriminate]. injection Heff as <-.
    repeat split; try reflexivity. discriminate.
  - discriminate.
  - destruct (bool_decide _); [|discriminate]. injection Heff as <-.
    repeat split; try reflexivity. discriminate.
  - destruct (retry && _) eqn:Hg; injection Heff as <-.
    + repeat split; try reflexivity. discriminate.
    + repeat split; try reflexivity. intros _. eauto.
  - destruct (_ || _); [|discriminate]. injection Heff as <-.
    repeat split; try reflexivity. discriminate.
  - discriminate.
Qed.

(** X24. No scheduler operation writes a task's metadata, description,
    priority, input, deadline or creation time: after any sequence of
    operations they are what they were. The retry count is part of the
    metadata, so it never grows in the store, and retries never run out:
    a task whose stored retry count is below [max_retries] is never made
    failed by [fail_task] with retry on, however often it is called; each
    such call puts it in retrying. *)
Theorem retries_never_run_out (self : TaskScheduler.t) (calls : list (Call * datetime)) :
  forall (db : Store) (k : UUID) (t t' : Task),
    tasks db !! k = Some t ->
    tasks (run self db calls) !! k = Some t' ->
    (metadata_ t' = metadata_ t
     /\ description t' = description t /\ priority t' = priority t
     /\ input_data t' = input_data t /\ deadline t' = deadline t
     /\ created_at t' = created_at t)
    /\ (default 0 (retry_count (metadata_ t)) < max_retries self ->
        status t ≠ FAILED ->
        (forall error now, (FailTask k error false, now) ∉ calls) ->
        status t' ≠ FAILED).
Proof.
  induction calls as [|[c now] calls IH]; intros db k t t' Hk Hk'; simpl in Hk'.
  - assert (t' = t) by congruence. subst t'. repeat split; auto.
  - assert (Hstep : exists t1,
               tasks (call self db c now).2 !! k = Some t1
               /\ (metadata_ t1 = metadata_ t
                   /\ description t1 = description t /\ priority t1 = priority t
                   /\ input_data t1 = input_data t /\ deadline t1 = deadline t
                   /\ created_at t1 = created_at t)
               /\ (default 0 (retry_count (metadata_ t)) < max_retries self ->
                   status t ≠ FAILED ->
                   (forall error, c ≠ FailTask k error false) ->
                   status t1 ≠ FAILED)).
    { destruct (call_tasks self db c now)
        as [[Heq _] | (t0 & t1 & Ht & Heff & _ & Heq)]; rewrite Heq.
      - exists t. repeat split; auto.
      - destruct (decide (subject c = k)) as [Hsub | Hne].
        + subst k. assert (t0 = t) by congruence. subst t0.
          exists t1. rewrite lookup_insert_eq. split; [reflexivity|].
          destruct (task_effect_keeps self now c t t1 Heff)
            as (Hm & Hd & Hp & Hi & Hdl & Hc & Hfailed).
          split; [repeat split; assumption|].
          intros Hlt _ Hcall Hst.
          destruct (Hfailed Hst) as (k' & error & retry & -> & Hg).
          simpl in *. apply Z.ltb_lt in Hlt. rewrite Hlt in Hg.
          destruct retry; [discriminate|]. apply (Hcall error). reflexivity.
        + exists t. rewrite lookup_insert_ne by exact Hne. repeat split; auto. }
    destruct Hstep as (t1 & Hk1 & (Hm & Hd & Hp & Hi & Hdl & Hc) & Hst1).
    destruct (IH _ k t1 t' Hk1 Hk') as ((Hm' & Hd' & Hp' & Hi' & Hdl' & Hc') & Hst').
    split; [repeat split; congruence|].
    intros Hlt Hst Hcalls. apply Hst'.
    + rewrite Hm. exact Hlt.
    + apply Hst1; [exact Hlt | exact Hst |].
      intros error ->. apply (Hcalls error now). apply list_elem_of_here.
    + intros error now' Hin. apply (Hcalls error now').
      apply list_elem_of_further. exact Hin.
Qed.

Lemma retries_never_run_out_witness :
  exists t',
    tasks (run scheduler (one_task IN_PROGRESS AgentStatus.BUSY)
             [(FailTask 1%N "e1" true, 1); (FailTask 1%N "e2" true, 2);
              (FailTask 1%N "e3" true, 3); (FailTask 1%N "e4" true, 4);
              (FailTask 1%N "e5" true, 5)]) !! 1%N = Some t'
    /\ status t' = RETRYING
    /\ retry_count (metadata_ t') = Some 0
    /\ status t' ≠ FAILED.
Proof.
  exists (set_task_agent_id None (set_task_status RETRYING
                                    (task_in IN_PROGRESS (Some 7%N)))).
  assert (Hrun : tasks (run scheduler (one_task IN_PROGRESS AgentStatus.BUSY)
                          [(FailTask 1%N "e1" true, 1); (FailTask 1%N "e2" true, 2);
                           (FailTask 1%N "e3" true, 3); (FailTask 1%N "e4" true, 4);
                           (FailTask 1%N "e5" true, 5)]) !! 1%N
                 = Some (set_task_agent_id None
                           (set_task_status RETRYING (task_in IN_PROGRESS (Some 7%N))))).
  { vm_compute. reflexivity. }
  split; [exact Hrun|]. split; [reflexivity|]. split; [reflexivity|].
  apply (proj2 (retries_never_run_out scheduler
                  [(FailTask 1%N "e1" true, 1); (FailTask 1%N "e2" true, 2);
                   (FailTask 1%N "e3" true, 3); (FailTask 1%N "e4" true, 4);
                   (FailTask 1%N "e5" true, 5)]
                  (one_task IN_PROGRESS AgentStatus.BUSY) 1%N
                  (task_in IN_PROGRESS (Some 7%N))
                  (set_task_agent_id None
                     (set_task_status RETRYING (task_in IN_PROGRESS (Some 7%N))))
                  eq_refl Hrun)).
  - simpl. lia.
  - discriminate.
  - intros error now Hin.
    repeat (apply elem_of_cons in Hin as [Hin|Hin]; [discriminate|]).
    apply elem_of_nil in Hin. exact Hin.
Defined.

End SchedulerStoredMetadata.
